(** * Fan controller: threshold mapping, arbitration and the monitor cycles

    A shallow embedding of [cpu_temp_monitors.py].  Temperatures are Python
    floats, thresholds and fan values are Python ints, the three latched fan
    speeds are module globals, and the monitors are actions of one
    [sched.scheduler] queue. *)

From Stdlib Require Import ZArith QArith List Sorted Permutation Bool Lia Lqa
  String.
Import ListNotations.
Local Open Scope Z_scope.

(** ** Python floats, as far as comparison sees them

    A float is a finite (dyadic) rational, an infinity or a NaN.  Python
    compares a float with an int, and a float with a float, by exact value;
    every ordered comparison that involves a NaN is [False]. *)

Inductive pyfloat : Type :=
| Finite (q : Q)
| PosInf
| NegInf
| NaN.

(** [x >= n] for a float [x] and an int [n]. *)
Definition ge_int (x : pyfloat) (n : Z) : bool :=
  match x with
  | Finite q => Qle_bool (inject_Z n) q
  | PosInf => true
  | NegInf => false
  | NaN => false
  end.

(** [x > y] for two floats. *)
Definition gt_float (x y : pyfloat) : bool :=
  match x, y with
  | NaN, _ | _, NaN => false
  | PosInf, PosInf => false
  | PosInf, _ => true
  | _, PosInf => false
  | NegInf, _ => false
  | Finite _, NegInf => true
  | Finite a, Finite b => negb (Qle_bool a b)
  end.

(** [x <= y] for two floats. *)
Definition le_float (x y : pyfloat) : bool :=
  match x, y with
  | NaN, _ | _, NaN => false
  | NegInf, _ => true
  | _, PosInf => true
  | PosInf, _ => false
  | Finite _, NegInf => false
  | Finite a, Finite b => Qle_bool a b
  end.

(** [x < n] for a float [x] and an int [n]. *)
Definition lt_int (x : pyfloat) (n : Z) : bool :=
  match x with
  | Finite q => negb (Qle_bool (inject_Z n) q)
  | NegInf => true
  | PosInf => false
  | NaN => false
  end.

(** The float written as an integer literal. *)
Definition of_int (n : Z) : pyfloat := Finite (inject_Z n).

(** ** Configuration *)

Definition CPU_SENSORS_CHECK_INTERVAL : Z := 5.
Definition NIC_SENSORS_CHECK_INTERVAL : Z := 5.
Definition HDD_SENSORS_CHECK_INTERVAL : Z := 60.

(** A threshold list: pairs [temp_threshold, fan_value]. *)
Definition thresholds_t : Type := list (Z * Z).

Definition CPU_THRESHOLDS : thresholds_t :=
  [ (1, 1); (27, 1); (33, 1); (37, 3); (42, 3); (49, 3); (54, 5);
    (59, 5); (64, 5); (69, 6); (73, 6); (79, 6); (80, 7); (87, 7) ].

Definition NIC_THRESHOLDS : thresholds_t :=
  [ (1, 1); (27, 1); (33, 1); (37, 3); (42, 3); (49, 3); (54, 5);
    (59, 5); (64, 5); (69, 6); (73, 6); (79, 6); (80, 7); (87, 7) ].

Definition HDD_THRESHOLDS : thresholds_t :=
  [ (1, 1); (22, 2); (28, 2); (34, 2); (37, 3); (42, 3); (47, 4);
    (51, 5); (57, 6); (61, 7) ].

(** ** choose_fan_value *)

(** The [for] loop of [choose_fan_value], started with [chosen_value]: an
    entry whose threshold the temperature reaches overwrites the value, the
    first entry it does not reach ends the loop ([break]). *)
Fixpoint choose_loop (chosen_value : Z) (temperature : pyfloat)
    (thresholds : thresholds_t) : Z :=
  match thresholds with
  | [] => chosen_value
  | (threshold, fan_val) :: rest =>
      if ge_int temperature threshold
      then choose_loop fan_val temperature rest
      else chosen_value
  end.

Definition choose_fan_value (temperature : pyfloat)
    (thresholds : thresholds_t) : Z :=
  choose_loop 1 temperature thresholds.

(** ** The scheduler queue

    [sched.scheduler] keeps its events in a heap ordered by the tuple
    [(time, priority, sequence)]; [sequence] is a running counter, so two
    events never compare equal.  The heap is represented by its content in
    ascending order: [q[0]] is the head of the list. *)

Inductive Action : Type := CheckCpu | CheckHdds | CheckNic.

Record Event : Type := mkEvent {
  time : Q;
  priority : Z;
  sequence : nat;
  action : Action
}.

Definition Qlt_bool (a b : Q) : bool := negb (Qle_bool b a).

(** Tuple comparison [e1 < e2]: the first field that differs decides. *)
Definition event_lt (e1 e2 : Event) : bool :=
  if Qlt_bool (time e1) (time e2) then true
  else if Qlt_bool (time e2) (time e1) then false
  else if priority e1 <? priority e2 then true
  else if priority e2 <? priority e1 then false
  else Nat.ltb (sequence e1) (sequence e2).

Fixpoint heappush (e : Event) (q : list Event) : list Event :=
  match q with
  | [] => [e]
  | h :: rest => if event_lt e h then e :: q else h :: heappush e rest
  end.

(** ** Program state *)

(** Marks left by the scheduler around an action it runs; they are
    bookkeeping of the model and influence nothing. *)
Inductive Mark : Type :=
| Began (a : Action)
| Ended (a : Action).

(** One [ipmitool raw 0x3c 0x30 0x00 0x00 <fan_speed>] invocation and
    whether it exited with status zero. *)
Record Call : Type := mkCall {
  level : Z;
  exit_ok : bool
}.

Record World : Type := mkWorld {
  cpu_fan_speed : Z;
  hdd_fan_speed : Z;
  nic_fan_speed : Z;
  queue : list Event;
  next_sequence : nat;
  ipmitool_calls : list Call;   (* oldest first *)
  history : list Mark           (* oldest first *)
}.

Definition set_cpu_fan_speed (v : Z) (w : World) : World :=
  mkWorld v (hdd_fan_speed w) (nic_fan_speed w) (queue w)
          (next_sequence w) (ipmitool_calls w) (history w).

Definition set_hdd_fan_speed (v : Z) (w : World) : World :=
  mkWorld (cpu_fan_speed w) v (nic_fan_speed w) (queue w)
          (next_sequence w) (ipmitool_calls w) (history w).

Definition set_nic_fan_speed (v : Z) (w : World) : World :=
  mkWorld (cpu_fan_speed w) (hdd_fan_speed w) v (queue w)
          (next_sequence w) (ipmitool_calls w) (history w).

Definition set_queue (q : list Event) (w : World) : World :=
  mkWorld (cpu_fan_speed w) (hdd_fan_speed w) (nic_fan_speed w) q
          (next_sequence w) (ipmitool_calls w) (history w).

Definition run_ipmitool (c : Call) (w : World) : World :=
  mkWorld (cpu_fan_speed w) (hdd_fan_speed w) (nic_fan_speed w) (queue w)
          (next_sequence w) (ipmitool_calls w ++ [c]) (history w).

Definition mark (m : Mark) (w : World) : World :=
  mkWorld (cpu_fan_speed w) (hdd_fan_speed w) (nic_fan_speed w) (queue w)
          (next_sequence w) (ipmitool_calls w) (history w ++ [m]).

(** ** What the surroundings answer during one pass of the scheduler loop

    The sensor readers catch every exception and return [None] (or the empty
    dict), so a reading is an optional float, or a dict from device to
    float, here in iteration order.  [subprocess.run(..., check=True)] on
    the ipmitool command returns, or raises [CalledProcessError] on a
    non-zero exit status, which [set_fan_speed] catches; the case that the
    command cannot be started is followed further down, under the
    exceptions that leave the program.  The clock is read in exact
    seconds. *)

Record Env : Type := mkEnv {
  clock_run : Q;                            (* timefunc() in scheduler.run *)
  cpu_temp : option pyfloat;                (* get_cpu_temperature() *)
  nic_temp : option pyfloat;                (* get_nic_temperature() *)
  hdd_temperatures : list (string * pyfloat); (* get_hdd_temperature() *)
  ipmitool_ok : bool;                       (* exit status of ipmitool is 0 *)
  clock_enter : Q                           (* timefunc() in scheduler.enter *)
}.

(** ** The functions of the program *)

(** [set_fan_speed] when [subprocess.run] starts the command: the command
    runs and exits with status zero or not, and the function returns.  The
    path on which the command cannot be started is [set_fan_speed_exn]. *)
Definition set_fan_speed (fan_speed : Z) (ok : bool) (w : World) : World :=
  let fan_speed := Z.max 1 (Z.min fan_speed 100) in
  run_ipmitool (mkCall fan_speed ok) w.

Definition update_final_fan_speed (ok : bool) (w : World) : World :=
  let final_speed :=
    Z.max (Z.max (cpu_fan_speed w) (hdd_fan_speed w)) (nic_fan_speed w) in
  set_fan_speed final_speed ok w.

(** [scheduler.enter(delay, priority, action)] when the clock reads [now]. *)
Definition scheduler_enter (now : Q) (delay priority : Z) (a : Action)
    (w : World) : World :=
  let e := mkEvent (now + inject_Z delay)%Q priority (next_sequence w) a in
  mkWorld (cpu_fan_speed w) (hdd_fan_speed w) (nic_fan_speed w)
          (heappush e (queue w)) (S (next_sequence w))
          (ipmitool_calls w) (history w).

Definition check_cpu (e : Env) (w : World) : World :=
  let w :=
    match cpu_temp e with
    | Some t => set_cpu_fan_speed (choose_fan_value t CPU_THRESHOLDS) w
    | None => w
    end in
  let w := update_final_fan_speed (ipmitool_ok e) w in
  scheduler_enter (clock_enter e) CPU_SENSORS_CHECK_INTERVAL 1 CheckCpu w.

Definition check_nic (e : Env) (w : World) : World :=
  let w :=
    match nic_temp e with
    | Some t => set_nic_fan_speed (choose_fan_value t NIC_THRESHOLDS) w
    | None => w
    end in
  let w := update_final_fan_speed (ipmitool_ok e) w in
  scheduler_enter (clock_enter e) NIC_SENSORS_CHECK_INTERVAL 1 CheckNic w.

(** The loop of [check_hdds] over [hdd_temperatures.items()]. *)
Definition max_hdd_loop (max_hdd_temp : pyfloat)
    (items : list (string * pyfloat)) : pyfloat :=
  fold_left (fun m item => if gt_float (snd item) m then snd item else m)
            items max_hdd_temp.

Definition check_hdds (e : Env) (w : World) : World :=
  let max_hdd_temp := max_hdd_loop (Finite 0) (hdd_temperatures e) in
  let w := set_hdd_fan_speed (choose_fan_value max_hdd_temp HDD_THRESHOLDS) w in
  let w := update_final_fan_speed (ipmitool_ok e) w in
  scheduler_enter (clock_enter e) HDD_SENSORS_CHECK_INTERVAL 2 CheckHdds w.

Definition perform (a : Action) : Env -> World -> World :=
  match a with
  | CheckCpu => check_cpu
  | CheckHdds => check_hdds
  | CheckNic => check_nic
  end.

(** One pass of the [while True] loop of [scheduler.run]: an empty queue
    ends the loop; a head that is not yet due is slept on and stays queued;
    a due head is popped and its action run to completion. *)
Definition run_pass (e : Env) (w : World) : World :=
  match queue w with
  | [] => w
  | ev :: rest =>
      if Qlt_bool (clock_run e) (time ev)
      then w
      else
        let w := mark (Began (action ev)) (set_queue rest w) in
        let w := perform (action ev) e w in
        mark (Ended (action ev)) w
  end.

Definition run (envs : list Env) (w : World) : World :=
  fold_left (fun w e => run_pass e w) envs w.

(** The module's globals before [main]. *)
Definition initial : World := mkWorld 3 3 3 [] 0 [] [].

(** [main] up to the call of [scheduler.run]; [t1], [t2], [t3] are the clock
    readings of the three [scheduler.enter] calls. *)
Definition main_seed (t1 t2 t3 : Q) : World :=
  let w := scheduler_enter t1 0 1 CheckCpu initial in
  let w := scheduler_enter t2 0 2 CheckHdds w in
  scheduler_enter t3 0 3 CheckNic w.

Definition main (t1 t2 t3 : Q) (envs : list Env) : World :=
  run envs (main_seed t1 t2 t3).

(** ** Exceptions that leave the program

    [set_fan_speed] catches [CalledProcessError] and nothing else.  When
    [subprocess.run] cannot start the command it raises an [OSError]
    ([FileNotFoundError] when ipmitool is not installed); that exception
    leaves [set_fan_speed], [update_final_fan_speed], the monitor that
    called it and [scheduler.run].  The functions above are the program on
    the paths where the command starts; the functions below follow both
    kinds of path.  They take the outcome of [subprocess.run] as an argument
    of its own and do not read [ipmitool_ok]. *)

(** How [subprocess.run(command, check=True)] ends: the command ran and
    exited, with status zero or not, or it could not be started. *)
Inductive RunOutcome : Type :=
| Exited (ok : bool)
| NotStarted.

(** How a call ends: it returns, or an exception leaves it; either way
    with the state it has reached. *)
Inductive Completion : Type :=
| Returns (w : World)
| Raises (w : World).

Definition set_fan_speed_exn (fan_speed : Z) (o : RunOutcome) (w : World)
    : Completion :=
  let fan_speed := Z.max 1 (Z.min fan_speed 100) in
  match o with
  | Exited ok => Returns (run_ipmitool (mkCall fan_speed ok) w)
  | NotStarted => Raises w
  end.

Definition update_final_fan_speed_exn (o : RunOutcome) (w : World)
    : Completion :=
  let final_speed :=
    Z.max (Z.max (cpu_fan_speed w) (hdd_fan_speed w)) (nic_fan_speed w) in
  set_fan_speed_exn final_speed o w.

Definition check_cpu_exn (e : Env) (o : RunOutcome) (w : World)
    : Completion :=
  let w :=
    match cpu_temp e with
    | Some t => set_cpu_fan_speed (choose_fan_value t CPU_THRESHOLDS) w
    | None => w
    end in
  match update_final_fan_speed_exn o w with
  | Returns w =>
      Returns (scheduler_enter (clock_enter e) CPU_SENSORS_CHECK_INTERVAL 1
                               CheckCpu w)
  | Raises w => Raises w
  end.

Definition check_nic_exn (e : Env) (o : RunOutcome) (w : World)
    : Completion :=
  let w :=
    match nic_temp e with
    | Some t => set_nic_fan_speed (choose_fan_value t NIC_THRESHOLDS) w
    | None => w
    end in
  match update_final_fan_speed_exn o w with
  | Returns w =>
      Returns (scheduler_enter (clock_enter e) NIC_SENSORS_CHECK_INTERVAL 1
                               CheckNic w)
  | Raises w => Raises w
  end.

Definition check_hdds_exn (e : Env) (o : RunOutcome) (w : World)
    : Completion :=
  let max_hdd_temp := max_hdd_loop (Finite 0) (hdd_temperatures e) in
  let w := set_hdd_fan_speed (choose_fan_value max_hdd_temp HDD_THRESHOLDS) w in
  match update_final_fan_speed_exn o w with
  | Returns w =>
      Returns (scheduler_enter (clock_enter e) HDD_SENSORS_CHECK_INTERVAL 2
                               CheckHdds w)
  | Raises w => Raises w
  end.

Definition perform_exn (a : Action) : Env -> RunOutcome -> World -> Completion :=
  match a with
  | CheckCpu => check_cpu_exn
  | CheckHdds => check_hdds_exn
  | CheckNic => check_nic_exn
  end.

(** One pass of the loop of [scheduler.run]; an exception that leaves the
    action leaves the loop, after the event was popped. *)
Definition run_pass_exn (e : Env) (o : RunOutcome) (w : World) : Completion :=
  match queue w with
  | [] => Returns w
  | ev :: rest =>
      if Qlt_bool (clock_run e) (time ev)
      then Returns w
      else
        let w := mark (Began (action ev)) (set_queue rest w) in
        match perform_exn (action ev) e o w with
        | Returns w => Returns (mark (Ended (action ev)) w)
        | Raises w => Raises w
        end
  end.

(** The passes of [scheduler.run] one after the other, up to the first
    exception; [Returns] is the state after the listed passes, with the loop
    still going. *)
Fixpoint run_exn (passes : list (Env * RunOutcome)) (w : World) : Completion :=
  match passes with
  | [] => Returns w
  | (e, o) :: rest =>
      match run_pass_exn e o w with
      | Returns w => run_exn rest w
      | Raises w => Raises w
      end
  end.

Definition main_exn (t1 t2 t3 : Q) (passes : list (Env * RunOutcome))
    : Completion :=
  run_exn passes (main_seed t1 t2 t3).


(** ** The sensor readers

    The readers run an external command and search its output with a
    regular expression.  The command's decoded output is [None] when
    [subprocess.check_output] or [decode] raises.  The regular-expression
    engine and the float parser are those of Python: [re_search p s] is
    group 1 of the first match of [p] in [s], [float s] is [None] when
    [float(s)] raises [ValueError]. *)

Definition HDD_LIST : list string :=
  [ "/dev/nvme0"%string; "/dev/nvme1"%string;
    "/dev/nvme2"%string; "/dev/nvme3"%string ].

Definition cpu_pattern : string := "Tctl:\s*\++([\d.]+)°C".

Definition nic_pattern (nic : string) : string :=
  (nic ++ "-\w+.*\n\s*Adapter: PCI adapter\n\s*(?:sensor0|temp1):\s*\++([\d.]+)°C")%string.

Definition hdd_pattern (nvme : string) : string :=
  (nvme ++ ".*\n\s*Adapter: PCI adapter\n\s*sensor0:\s*\++([\d.]+)°C")%string.

(** [d[k] = v] on a dict kept in insertion order: a key already present
    keeps its place and takes the new value. *)
Fixpoint dict_set (k : string) (v : pyfloat) (d : list (string * pyfloat))
    : list (string * pyfloat) :=
  match d with
  | [] => [(k, v)]
  | (k', v') :: rest =>
      if String.eqb k' k then (k', v) :: rest
      else (k', v') :: dict_set k v rest
  end.

Section Readers.

Variable re_search : string -> string -> option string.
Variable float : string -> option pyfloat.

Definition get_cpu_temperature (sensors : option string) : option pyfloat :=
  match sensors with
  | None => None
  | Some output =>
      match re_search cpu_pattern output with
      | Some group1 => float group1
      | None => None
      end
  end.

(** The [for nic in ...] loop of [get_nic_temperature]: the first
    adapter that matches ends it; [None] outside is an exception raised
    by [float]. *)
Fixpoint nic_loop (nics : list string) (output : string)
    : option (option pyfloat) :=
  match nics with
  | [] => Some None
  | nic :: rest =>
      match re_search (nic_pattern nic) output with
      | Some group1 =>
          match float group1 with
          | Some nic_temp => Some (Some nic_temp)
          | None => None
          end
      | None => nic_loop rest output
      end
  end.

Definition get_nic_temperature (sensors : option string) : option pyfloat :=
  match sensors with
  | None => None
  | Some output =>
      match nic_loop ["be2net"%string; "mlx5"%string] output with
      | Some nic_temp => nic_temp
      | None => None
      end
  end.

(** The [for nvme in HDD_LIST] loop of [get_hdd_temperature]; [None] is
    an exception raised by [float]. *)
Fixpoint hdd_loop (devices : list string) (output : string)
    (temperatures : list (string * pyfloat))
    : option (list (string * pyfloat)) :=
  match devices with
  | [] => Some temperatures
  | nvme :: rest =>
      match re_search (hdd_pattern nvme) output with
      | Some temp =>
          match float temp with
          | Some v => hdd_loop rest output (dict_set nvme v temperatures)
          | None => None
          end
      | None => hdd_loop rest output temperatures
      end
  end.

Definition get_hdd_temperature (tempnvme : option string)
    : list (string * pyfloat) :=
  match tempnvme with
  | None => []
  | Some output =>
      match hdd_loop HDD_LIST output [] with
      | Some temperatures => temperatures
      | None => []
      end
  end.

(** What one pass of the scheduler loop is answered when the readers are
    run on the given command outputs. *)
Definition sensed (t_run : Q) (sensors_cpu sensors_nic tempnvme : option string)
    (ok : bool) (t_enter : Q) : Env :=
  mkEnv t_run (get_cpu_temperature sensors_cpu)
        (get_nic_temperature sensors_nic)
        (get_hdd_temperature tempnvme) ok t_enter.

End Readers.

(** ** Vocabulary of the properties *)

(** Thresholds strictly ascending, fan values non-decreasing, along the list. *)
Definition strictly_ascending (thresholds : thresholds_t) : Prop :=
  StronglySorted (fun a b => fst a < fst b) thresholds.

Definition levels_non_decreasing (thresholds : thresholds_t) : Prop :=
  StronglySorted (fun a b => snd a <= snd b) thresholds.

Definition levels_at_least_one (thresholds : thresholds_t) : Prop :=
  Forall (fun a => 1 <= snd a) thresholds.

(** Entry [e] sits at index [i], its threshold is [<=] the temperature, and
    no entry at a greater index has that property. *)
Definition greatest_qualifying (temperature : pyfloat)
    (thresholds : thresholds_t) (i : nat) (e : Z * Z) : Prop :=
  nth_error thresholds i = Some e /\
  ge_int temperature (fst e) = true /\
  forall j e', (i < j)%nat -> nth_error thresholds j = Some e' ->
               ge_int temperature (fst e') = false.

Definition none_qualifies (temperature : pyfloat)
    (thresholds : thresholds_t) : Prop :=
  forall e, In e thresholds -> ge_int temperature (fst e) = false.

(** The table of the worked example. *)
Definition example_table : thresholds_t :=
  [ (1, 1); (27, 1); (37, 3); (54, 5); (69, 6); (80, 7) ].

(** The maximum of the three latched values. *)
Definition arbitrated (w : World) : Z :=
  Z.max (cpu_fan_speed w) (Z.max (hdd_fan_speed w) (nic_fan_speed w)).

(** [v] restricted to the range 1..100. *)
Definition clamped (v : Z) : Z :=
  if v <? 1 then 1 else if 100 <? v then 100 else v.

Definition interval_of (a : Action) : Z :=
  match a with
  | CheckCpu => 5
  | CheckNic => 5
  | CheckHdds => 60
  end.

Definition priority_of (a : Action) : Z :=
  match a with
  | CheckCpu => 1
  | CheckNic => 1
  | CheckHdds => 2
  end.

(** The latched value a monitor owns. *)
Definition latched (a : Action) (w : World) : Z :=
  match a with
  | CheckCpu => cpu_fan_speed w
  | CheckHdds => hdd_fan_speed w
  | CheckNic => nic_fan_speed w
  end.

(** The sample of monitor [a] yields no reading. *)
Definition sample_failed (a : Action) (e : Env) : Prop :=
  match a with
  | CheckCpu => cpu_temp e = None
  | CheckNic => nic_temp e = None
  | CheckHdds => hdd_temperatures e = []
  end.

(** The event a cycle of [a] leaves in the queue when it ends. *)
Definition next_event (a : Action) (e : Env) (w : World) : Event :=
  mkEvent (clock_enter e + inject_Z (interval_of a))%Q (priority_of a)
          (next_sequence w) a.

(** Successive clock readings never go back. *)
Fixpoint clock_monotone (readings : list Q) : Prop :=
  match readings with
  | [] => True
  | a :: rest =>
      match rest with
      | [] => True
      | b :: _ => (a <= b)%Q /\ clock_monotone rest
      end
  end.

Definition in_1_7 (v : Z) : Prop := 1 <= v <= 7.

Definition latches_in_1_7 (w : World) : Prop :=
  in_1_7 (cpu_fan_speed w) /\ in_1_7 (hdd_fan_speed w) /\
  in_1_7 (nic_fan_speed w).

(** An environment in which every sample fails. *)
Definition all_fail (t_run t_enter : Q) (ok : bool) : Env :=
  mkEnv t_run None None [] ok t_enter.

(** The longest prefix of the list whose thresholds the temperature
    reaches. *)
Fixpoint reached_prefix (temperature : pyfloat) (thresholds : thresholds_t)
    : thresholds_t :=
  match thresholds with
  | [] => []
  | e :: rest =>
      if ge_int temperature (fst e) then e :: reached_prefix temperature rest
      else []
  end.

(** The fan curve of the processor and network-adapter lists, by band. *)
Definition cpu_curve (t : pyfloat) : Z :=
  if ge_int t 80 then 7
  else if ge_int t 69 then 6
  else if ge_int t 54 then 5
  else if ge_int t 37 then 3
  else 1.

(** The fan curve of the storage list, by band. *)
Definition hdd_curve (t : pyfloat) : Z :=
  if ge_int t 61 then 7
  else if ge_int t 57 then 6
  else if ge_int t 51 then 5
  else if ge_int t 47 then 4
  else if ge_int t 37 then 3
  else if ge_int t 22 then 2
  else 1.

Definition is_nan (x : pyfloat) : bool :=
  match x with
  | NaN => true
  | _ => false
  end.

(** The greatest of the fan values of the single device readings, 1 when
    there is none. *)
Definition hottest_level (thresholds : thresholds_t)
    (items : list (string * pyfloat)) : Z :=
  fold_right Z.max 1
             (map (fun item => choose_fan_value (snd item) thresholds) items).

(** The actions the scheduler has started, oldest first. *)
Fixpoint started (h : list Mark) : list Action :=
  match h with
  | [] => []
  | Began a :: rest => a :: started rest
  | Ended _ :: rest => started rest
  end.

(** The last actuator command, if any, carried the maximum of the latched
    values as they are now. *)
Definition actuator_current (w : World) : Prop :=
  ipmitool_calls w = [] \/
  exists earlier ok, ipmitool_calls w = earlier ++ [mkCall (arbitrated w) ok].

(** In [output], device [k] matched and its text parsed to [v]. *)
Definition device_reads (re_search : string -> string -> option string)
    (float : string -> option pyfloat) (output k : string) (v : pyfloat)
    : Prop :=
  exists g, re_search (hdd_pattern k) output = Some g /\ float g = Some v.

(** A regular-expression engine and a float parser for examples: device
    [/dev/nvme2] reports a text that is no float, every other pattern
    reports 40.0. *)
Definition example_search (pattern text : string) : option string :=
  if String.eqb pattern (hdd_pattern "/dev/nvme2") then Some "1.2.3"%string
  else Some "40.0"%string.

Definition example_float (s : string) : option pyfloat :=
  if String.eqb s "40.0" then Some (of_int 40) else None.

(** Case analysis on the bands of a configured curve; [down] and [up] are
    the two monotonicity facts of [ge_int] in its threshold. *)
Ltac settle_bands t down up :=
  repeat match goal with
         | H : ge_int t ?a = true |- context [ge_int t ?b] =>
             rewrite (down t a b ltac:(lia) H)
         | H : ge_int t ?a = false |- context [ge_int t ?b] =>
             rewrite (up t a b ltac:(lia) H)
         end.

Ltac split_bands t down up :=
  repeat (settle_bands t down up; try reflexivity;
          match goal with
          | |- context [ge_int t ?a] => destruct (ge_int t a) eqn:?
          end).

(** Side conditions on event times and priorities. *)
Ltac clock :=
  cbn [time priority action next_event interval_of priority_of];
  unfold inject_Z; first [lra | lia].

#[local] Arguments choose_fan_value : simpl never.
#[local] Arguments max_hdd_loop : simpl never.

(** ** Comparison facts *)

Lemma ge_int_antitone (t : pyfloat) (a b : Z) :
  b <= a -> ge_int t a = true -> ge_int t b = true.
Proof.
  destruct t as [q| | |]; simpl; trivial.
  intros Hba Ha. apply Qle_bool_iff in Ha. apply Qle_bool_iff.
  apply Qle_trans with (inject_Z a); [|exact Ha].
  rewrite <- Zle_Qle. exact Hba.
Qed.

Lemma ge_int_le_float (t1 t2 : pyfloat) (n : Z) :
  le_float t1 t2 = true -> ge_int t1 n = true -> ge_int t2 n = true.
Proof.
  destruct t1 as [a| | |], t2 as [b| | |]; simpl; try discriminate; trivial.
  intros Hab Ha. apply Qle_bool_iff in Hab, Ha. apply Qle_bool_iff.
  eapply Qle_trans; eassumption.
Qed.

Lemma lt_int_not_ge (t : pyfloat) (n : Z) :
  lt_int t n = true -> ge_int t n = false.
Proof.
  destruct t as [q| | |]; simpl; try discriminate; trivial.
  intros H. apply negb_true_iff in H. exact H.
Qed.

(** ** The loop of choose_fan_value *)

Lemma choose_loop_stops (c : Z) (t : pyfloat) (tb : thresholds_t) :
  (forall e, nth_error tb 0 = Some e -> ge_int t (fst e) = false) ->
  choose_loop c t tb = c.
Proof.
  destruct tb as [|[th lv] rest]; simpl; trivial.
  intros H. specialize (H (th, lv) eq_refl). simpl in H.
  rewrite H. reflexivity.
Qed.

Lemma choose_loop_greatest (t : pyfloat) (tb : thresholds_t) :
  strictly_ascending tb ->
  forall c i e, greatest_qualifying t tb i e -> choose_loop c t tb = snd e.
Proof.
  unfold strictly_ascending, greatest_qualifying.
  induction 1 as [|[th lv] rest Hsorted IH Hhead]; intros c i e (Hi & Hq & Hlater).
  - destruct i; discriminate.
  - destruct i as [|i]; simpl in Hi.
    + injection Hi as <-. simpl in *. rewrite Hq.
      apply choose_loop_stops. intros e' He'.
      apply (Hlater 1%nat); [lia | exact He'].
    + assert (Hin : In e rest) by (eapply nth_error_In; eassumption).
      rewrite Forall_forall in Hhead. specialize (Hhead e Hin). simpl in Hhead.
      simpl. rewrite (ge_int_antitone t (fst e) th) by (lia || assumption).
      apply (IH lv i e). repeat split; trivial.
      intros j e' Hj He'. apply (Hlater (S j)); [lia | exact He'].
Qed.

Lemma choose_loop_none (c : Z) (t : pyfloat) (tb : thresholds_t) :
  none_qualifies t tb -> choose_loop c t tb = c.
Proof.
  intros H. apply choose_loop_stops. intros e He.
  apply H. eapply nth_error_In; eassumption.
Qed.

(** With fan values that never fall below the starting value nor below
    one another along the list, the loop never returns less than what it
    started with. *)
Lemma choose_loop_lower (t : pyfloat) (tb : thresholds_t) :
  levels_non_decreasing tb ->
  forall c, Forall (fun a => c <= snd a) tb -> c <= choose_loop c t tb.
Proof.
  unfold levels_non_decreasing.
  induction 1 as [|[th lv] rest Hsorted IH Hhead]; intros c Hc; simpl.
  - lia.
  - inversion Hc as [|? ? Hlv Hrest]; subst. simpl in Hlv.
    destruct (ge_int t th); [|lia].
    specialize (IH lv Hhead). lia.
Qed.

Lemma choose_loop_monotone (t1 t2 : pyfloat) (tb : thresholds_t) :
  levels_non_decreasing tb -> le_float t1 t2 = true ->
  forall c, Forall (fun a => c <= snd a) tb ->
            choose_loop c t1 tb <= choose_loop c t2 tb.
Proof.
  unfold levels_non_decreasing. intros Hsorted Hle.
  induction Hsorted as [|[th lv] rest Hsorted IH Hhead]; intros c Hc; simpl.
  - lia.
  - inversion Hc as [|? ? Hlv Hrest]; subst. simpl in Hlv.
    destruct (ge_int t1 th) eqn:H1.
    + rewrite (ge_int_le_float t1 t2 th Hle H1). apply IH. exact Hhead.
    + destruct (ge_int t2 th); [|lia].
      pose proof (choose_loop_lower t2 rest Hsorted lv Hhead). lia.
Qed.

Lemma choose_loop_range (lo hi : Z) (t : pyfloat) (tb : thresholds_t) :
  Forall (fun a => lo <= snd a <= hi) tb ->
  forall c, lo <= c <= hi -> lo <= choose_loop c t tb <= hi.
Proof.
  induction 1 as [|[th lv] rest Hlv Hrest IH]; intros c Hc; simpl.
  - exact Hc.
  - destruct (ge_int t th); [apply IH; exact Hlv | exact Hc].
Qed.

Lemma greatest_or_none (t : pyfloat) (tb : thresholds_t) :
  (exists i e, greatest_qualifying t tb i e) \/ none_qualifies t tb.
Proof.
  unfold greatest_qualifying, none_qualifies.
  induction tb as [|x rest IH].
  - right. intros e [].
  - destruct IH as [(i & e & Hi & Hq & Hlater) | Hnone].
    + left. exists (S i), e. repeat split; trivial.
      intros [|j] e' Hj He'; [lia|]. apply (Hlater j); [lia | exact He'].
    + destruct (ge_int t (fst x)) eqn:Hx.
      * left. exists 0%nat, x. repeat split; trivial.
        intros [|j] e' Hj He'; [lia|]. simpl in He'.
        apply Hnone. eapply nth_error_In; eassumption.
      * right. intros e [<- | Hin]; [exact Hx | apply Hnone; exact Hin].
Qed.

Lemma example_table_ascending : strictly_ascending example_table.
Proof.
  unfold strictly_ascending, example_table.
  repeat (constructor; [|repeat constructor; simpl; lia]). constructor.
Qed.

(** ** The threshold map *)

(** C2.  On a threshold list strictly ascending by threshold, and for every
    float temperature (finite, infinite or NaN), [choose_fan_value] returns
    the fan value of the entry at the greatest index whose threshold is
    [<=] the temperature, and 1 when no entry qualifies, in particular when
    the temperature is below the first threshold; one of the two cases always
    applies.  On the example table it returns 1 at 36, 3 at 37 and 7 at 90. *)
Theorem choose_fan_value_greatest_index :
  (forall (t : pyfloat) (tb : thresholds_t),
      strictly_ascending tb ->
      (forall i e, greatest_qualifying t tb i e ->
                   choose_fan_value t tb = snd e) /\
      (none_qualifies t tb -> choose_fan_value t tb = 1) /\
      (forall th lv rest, tb = (th, lv) :: rest -> lt_int t th = true ->
                          choose_fan_value t tb = 1) /\
      ((exists i e, greatest_qualifying t tb i e) \/ none_qualifies t tb)) /\
  choose_fan_value (of_int 36) example_table = 1 /\
  choose_fan_value (of_int 37) example_table = 3 /\
  choose_fan_value (of_int 90) example_table = 7 /\
  choose_fan_value (of_int (-40)) example_table = 1 /\
  choose_fan_value PosInf example_table = 7 /\
  choose_fan_value NegInf example_table = 1 /\
  choose_fan_value NaN example_table = 1.
Proof.
  split; [|repeat split; reflexivity].
  intros t tb Hasc. unfold choose_fan_value. repeat split.
  - intros i e. apply choose_loop_greatest. exact Hasc.
  - apply choose_loop_none.
  - intros th lv rest -> Hlt. simpl.
    rewrite (lt_int_not_ge t th Hlt). reflexivity.
  - apply greatest_or_none.
Qed.

Lemma choose_fan_value_greatest_index_witness :
  strictly_ascending example_table /\
  choose_fan_value (of_int 37) example_table = snd (37, 3).
Proof.
  split; [exact example_table_ascending|].
  apply (proj1 (proj1 choose_fan_value_greatest_index (of_int 37)
                      example_table example_table_ascending) 2%nat (37, 3)).
  repeat split.
  intros j e' Hj He'.
  destruct j as [|[|[|[|[|[|j]]]]]]; simpl in He'; try lia;
    try (injection He' as <-; reflexivity).
  destruct j; discriminate.
Defined.

(** C4, as stated, fails: a list may be strictly ascending with
    non-decreasing fan values and still hold a fan value below 1, the value
    returned when nothing qualifies. *)
Lemma choose_fan_value_not_monotone_below_one :
  ~ (forall (tb : thresholds_t) (t1 t2 : pyfloat),
        strictly_ascending tb -> levels_non_decreasing tb ->
        le_float t1 t2 = true ->
        choose_fan_value t1 tb <= choose_fan_value t2 tb).
Proof.
  intros H.
  specialize (H [(10, 0)] (of_int 5) (of_int 10)).
  assert (Hgoal : choose_fan_value (of_int 5) [(10, 0)]
                  <= choose_fan_value (of_int 10) [(10, 0)]).
  { apply H; [repeat constructor | repeat constructor | reflexivity]. }
  vm_compute in Hgoal. apply Hgoal. reflexivity.
Qed.

(** C4, amended.  On a threshold list strictly ascending by threshold whose
    fan values are non-decreasing along the list and all at least 1,
    [choose_fan_value] is non-decreasing in the temperature. *)
Theorem choose_fan_value_monotone (tb : thresholds_t) (t1 t2 : pyfloat) :
  strictly_ascending tb -> levels_non_decreasing tb ->
  levels_at_least_one tb ->
  le_float t1 t2 = true ->
  choose_fan_value t1 tb <= choose_fan_value t2 tb.
Proof.
  intros _ Hlv Hone Hle. unfold choose_fan_value.
  apply choose_loop_monotone; assumption.
Qed.

Lemma CPU_THRESHOLDS_ascending : strictly_ascending CPU_THRESHOLDS.
Proof.
  unfold strictly_ascending, CPU_THRESHOLDS.
  repeat (constructor; [|repeat constructor; simpl; lia]). constructor.
Qed.

Lemma CPU_THRESHOLDS_levels : levels_non_decreasing CPU_THRESHOLDS.
Proof.
  unfold levels_non_decreasing, CPU_THRESHOLDS.
  repeat (constructor; [|repeat constructor; simpl; lia]). constructor.
Qed.

Lemma CPU_THRESHOLDS_at_least_one : levels_at_least_one CPU_THRESHOLDS.
Proof.
  unfold levels_at_least_one, CPU_THRESHOLDS. repeat constructor; simpl; lia.
Qed.

Lemma choose_fan_value_monotone_witness :
  strictly_ascending CPU_THRESHOLDS /\
  levels_non_decreasing CPU_THRESHOLDS /\
  levels_at_least_one CPU_THRESHOLDS /\
  le_float (of_int 36) (Finite (75 # 2)) = true /\
  choose_fan_value (of_int 36) CPU_THRESHOLDS
  <= choose_fan_value (Finite (75 # 2)) CPU_THRESHOLDS.
Proof.
  split; [exact CPU_THRESHOLDS_ascending|].
  split; [exact CPU_THRESHOLDS_levels|].
  split; [exact CPU_THRESHOLDS_at_least_one|].
  split; [reflexivity|].
  apply (choose_fan_value_monotone CPU_THRESHOLDS (of_int 36)
           (Finite (75 # 2)) CPU_THRESHOLDS_ascending CPU_THRESHOLDS_levels
           CPU_THRESHOLDS_at_least_one eq_refl).
Defined.

(** ** Clamp and arbitration *)

Lemma clamped_max_min (v : Z) : Z.max 1 (Z.min v 100) = clamped v.
Proof.
  unfold clamped.
  destruct (Z.ltb_spec v 1); [lia|].
  destruct (Z.ltb_spec 100 v); lia.
Qed.

Lemma clamped_range (v : Z) : 1 <= clamped v <= 100.
Proof. rewrite <- clamped_max_min. lia. Qed.

Lemma python_max3 (a b c : Z) : Z.max (Z.max a b) c = Z.max a (Z.max b c).
Proof. lia. Qed.

Lemma update_final_fan_speed_calls (ok : bool) (w : World) :
  ipmitool_calls (update_final_fan_speed ok w)
  = ipmitool_calls w ++ [mkCall (clamped (arbitrated w)) ok].
Proof.
  unfold update_final_fan_speed, set_fan_speed, arbitrated. simpl.
  rewrite clamped_max_min, python_max3. reflexivity.
Qed.

Lemma update_final_fan_speed_latched (ok : bool) (w : World) (a : Action) :
  latched a (update_final_fan_speed ok w) = latched a w.
Proof. destruct a; reflexivity. Qed.

(** ** What one cycle does to each part of the state *)

Lemma perform_latched_other (a b : Action) (e : Env) (w : World) :
  b <> a -> latched b (perform a e w) = latched b w.
Proof.
  intros Hne.
  destruct a, b; try congruence; simpl;
    unfold check_cpu, check_nic, check_hdds;
    try destruct (cpu_temp e); try destruct (nic_temp e); reflexivity.
Qed.

Lemma perform_latched_failed (a : Action) (e : Env) (w : World) :
  a <> CheckHdds -> sample_failed a e ->
  latched a (perform a e w) = latched a w.
Proof.
  intros Hne Hfail. destruct a; try congruence; simpl in *;
    unfold check_cpu, check_nic; rewrite Hfail; reflexivity.
Qed.

Lemma perform_arbitrated_calls (a : Action) (e : Env) (w : World) :
  ipmitool_calls (perform a e w)
  = ipmitool_calls w
    ++ [mkCall (clamped (arbitrated (perform a e w))) (ipmitool_ok e)].
Proof.
  destruct a; simpl; unfold check_cpu, check_nic, check_hdds;
    try destruct (cpu_temp e); try destruct (nic_temp e);
    unfold scheduler_enter, update_final_fan_speed, set_fan_speed, arbitrated;
    simpl; rewrite clamped_max_min, python_max3; reflexivity.
Qed.

Lemma perform_queue (a : Action) (e : Env) (w : World) :
  queue (perform a e w) = heappush (next_event a e w) (queue w).
Proof.
  destruct a; simpl; unfold check_cpu, check_nic, check_hdds;
    try destruct (cpu_temp e); try destruct (nic_temp e); reflexivity.
Qed.

Lemma perform_next_sequence (a : Action) (e : Env) (w : World) :
  next_sequence (perform a e w) = S (next_sequence w).
Proof.
  destruct a; simpl; unfold check_cpu, check_nic, check_hdds;
    try destruct (cpu_temp e); try destruct (nic_temp e); reflexivity.
Qed.

Lemma perform_history (a : Action) (e : Env) (w : World) :
  history (perform a e w) = history w.
Proof.
  destruct a; simpl; unfold check_cpu, check_nic, check_hdds;
    try destruct (cpu_temp e); try destruct (nic_temp e); reflexivity.
Qed.

Lemma heappush_In_new (ev : Event) (q : list Event) : In ev (heappush ev q).
Proof.
  induction q as [|h rest IH]; simpl; [now left|].
  destruct (event_lt ev h); simpl; auto.
Qed.

Lemma heappush_In_old (ev x : Event) (q : list Event) :
  In x q -> In x (heappush ev q).
Proof.
  induction q as [|h rest IH]; simpl; [tauto|].
  destruct (event_lt ev h); simpl; tauto.
Qed.

(** ** Failed samples *)

(** A failed processor or network-adapter sample keeps the latched value of
    that monitor. *)
Lemma failed_cpu_nic_sample_retained (a : Action) (e1 e2 : Env) (w : World) :
  a <> CheckHdds -> sample_failed a e1 -> sample_failed a e2 ->
  latched a (perform a e1 w) = latched a w /\
  latched a (perform a e2 (perform a e1 w)) = latched a w.
Proof.
  intros Hne H1 H2. split.
  - apply perform_latched_failed; assumption.
  - rewrite perform_latched_failed by assumption.
    apply perform_latched_failed; assumption.
Qed.

(** C1, at the input where the code departs from it.  The storage value is 3
    at start; a [check_hdds] cycle whose device dict is empty maps the
    initial maximum 0.0 through the storage thresholds and latches 1,
    whatever the value was, so after one failed sample, and after two, the
    latched storage value is 1 and not the 3 it was before the failure. *)
Theorem check_hdds_empty_dict_latches_1 :
  hdd_fan_speed initial = 3 /\
  (forall t_run cpu nic ok t_enter w,
      hdd_fan_speed (check_hdds (mkEnv t_run cpu nic [] ok t_enter) w) = 1) /\
  hdd_fan_speed (check_hdds (all_fail 0 0 true) initial) = 1 /\
  hdd_fan_speed (check_hdds (all_fail 60 60 true)
                            (check_hdds (all_fail 0 0 true) initial)) = 1.
Proof. repeat split. Qed.

(** ** Arbitration and actuation *)

(** C3.  A recompute runs the actuator command exactly once, with the value
    [m] clamped to 1..100, where [m] is one of the three latched values and
    not below any of them; a monitor cycle recomputes over the latched
    values as they are after its own update.  With latched values 4, 7 and
    2, in any assignment to the domains, the actuator gets 7. *)
Theorem update_final_fan_speed_sends_max :
  (forall ok w, exists m,
      ipmitool_calls (update_final_fan_speed ok w)
      = ipmitool_calls w ++ [mkCall (clamped m) ok] /\
      (m = cpu_fan_speed w \/ m = hdd_fan_speed w \/ m = nic_fan_speed w) /\
      cpu_fan_speed w <= m /\ hdd_fan_speed w <= m /\ nic_fan_speed w <= m) /\
  (forall a e w,
      ipmitool_calls (perform a e w)
      = ipmitool_calls w
        ++ [mkCall (clamped (arbitrated (perform a e w))) (ipmitool_ok e)]) /\
  (forall ok q n calls h,
      ipmitool_calls (update_final_fan_speed ok (mkWorld 4 7 2 q n calls h))
      = calls ++ [mkCall 7 ok] /\
      ipmitool_calls (update_final_fan_speed ok (mkWorld 4 2 7 q n calls h))
      = calls ++ [mkCall 7 ok] /\
      ipmitool_calls (update_final_fan_speed ok (mkWorld 7 4 2 q n calls h))
      = calls ++ [mkCall 7 ok] /\
      ipmitool_calls (update_final_fan_speed ok (mkWorld 7 2 4 q n calls h))
      = calls ++ [mkCall 7 ok] /\
      ipmitool_calls (update_final_fan_speed ok (mkWorld 2 4 7 q n calls h))
      = calls ++ [mkCall 7 ok] /\
      ipmitool_calls (update_final_fan_speed ok (mkWorld 2 7 4 q n calls h))
      = calls ++ [mkCall 7 ok]).
Proof.
  split; [|split].
  - intros ok w. exists (arbitrated w).
    split; [apply update_final_fan_speed_calls|].
    unfold arbitrated. lia.
  - apply perform_arbitrated_calls.
  - intros. repeat split.
Qed.

(** C6.  Two recomputes in a row leave the three latched values as they
    were and run the actuator command twice with the same value, whatever
    the first run's exit status: nothing is compared with the value applied
    before. *)
Theorem update_final_fan_speed_twice (ok1 ok2 : bool) (w : World) :
  let w1 := update_final_fan_speed ok1 w in
  let w2 := update_final_fan_speed ok2 w1 in
  (forall a, latched a w1 = latched a w /\ latched a w2 = latched a w) /\
  ipmitool_calls w2
  = ipmitool_calls w ++ [mkCall (clamped (arbitrated w)) ok1;
                         mkCall (clamped (arbitrated w)) ok2].
Proof.
  split.
  - intros a; destruct a; split; reflexivity.
  - rewrite 2 update_final_fan_speed_calls.
    rewrite <- app_assoc. reflexivity.
Qed.

(** ** Monitor cycles *)

Lemma perform_exn_started (a : Action) (e : Env) (w : World) :
  perform_exn a e (Exited (ipmitool_ok e)) w = Returns (perform a e w).
Proof. destruct a; reflexivity. Qed.

Lemma perform_exn_not_started (a : Action) (e : Env) (w : World) :
  exists w', perform_exn a e NotStarted w = Raises w' /\
             queue w' = queue w /\
             ipmitool_calls w' = ipmitool_calls w /\
             history w' = history w.
Proof.
  destruct a; simpl; unfold check_cpu_exn, check_nic_exn, check_hdds_exn;
    try destruct (cpu_temp e); try destruct (nic_temp e);
    eexists; repeat split.
Qed.


(** C7, at the input where the code departs from it.  When the ipmitool
    command cannot be started, [subprocess.run] raises an exception that
    [set_fan_speed] does not catch: whatever the sample gave, the cycle of
    any monitor is left before [scheduler.enter], so it queues no next event
    and no command has run.  Seen from [main]: if this happens in the first
    pass, the exception leaves [scheduler.run] with [check_cpu] begun and not
    ended, only the storage and network-adapter events queued, and none of
    the later passes takes place. *)
Theorem command_not_started_ends_monitor :
  (forall a e w,
      exists w', perform_exn a e NotStarted w = Raises w' /\
                 queue w' = queue w /\
                 ipmitool_calls w' = ipmitool_calls w) /\
  (forall cpu nic hdds ok t_enter later,
      exists w',
        main_exn 0 0 0 ((mkEnv 0 cpu nic hdds ok t_enter, NotStarted) :: later)
        = Raises w' /\
        map action (queue w') = [CheckHdds; CheckNic] /\
        ipmitool_calls w' = [] /\
        history w' = [Began CheckCpu]).
Proof.
  split.
  - intros a e w.
    destruct (perform_exn_not_started a e w) as (w' & H1 & H2 & H3 & _).
    exists w'. repeat split; assumption.
  - intros cpu nic hdds ok t_enter later.
    destruct cpu as [t|]; eexists; repeat split.
Qed.

(** ** Monitor cycles whose command starts *)

(** X21.  When the ipmitool command starts, whatever its exit status and
    whatever the sample gave, the cycle of any monitor returns, has run the
    command exactly once, on the latched values as they are after the
    cycle's update, and leaves in the queue one new event for the same
    monitor, due at the clock reading taken at the end of the cycle plus the
    monitor's interval: 5 s for [check_cpu], 5 s for [check_nic], 60 s for
    [check_hdds]. *)
Theorem started_cycle_recomputes_and_reschedules (a : Action) (e : Env)
    (w : World) :
  perform_exn a e (Exited (ipmitool_ok e)) w = Returns (perform a e w) /\
  ipmitool_calls (perform a e w)
  = ipmitool_calls w
    ++ [mkCall (clamped (arbitrated (perform a e w))) (ipmitool_ok e)] /\
  queue (perform a e w) = heappush (next_event a e w) (queue w) /\
  In (next_event a e w) (queue (perform a e w)) /\
  action (next_event a e w) = a /\
  time (next_event a e w)
  = (clock_enter e + inject_Z match a with
                              | CheckCpu => CPU_SENSORS_CHECK_INTERVAL
                              | CheckNic => NIC_SENSORS_CHECK_INTERVAL
                              | CheckHdds => HDD_SENSORS_CHECK_INTERVAL
                              end)%Q /\
  CPU_SENSORS_CHECK_INTERVAL = 5 /\
  NIC_SENSORS_CHECK_INTERVAL = 5 /\
  HDD_SENSORS_CHECK_INTERVAL = 60.
Proof.
  split; [apply perform_exn_started|].
  split; [apply perform_arbitrated_calls|].
  split; [apply perform_queue|].
  split; [rewrite perform_queue; apply heappush_In_new|].
  destruct a; repeat split.
Qed.


(** C8.  A cycle whose sample fails leaves the latched values of the other
    two monitors as they were, keeps every event that was pending in the
    queue, and adds the failing monitor's own next event; the same holds for
    the pass of the scheduler loop that runs such a cycle, which returns to
    the loop with the sibling events still queued. *)
Theorem failed_sample_isolated (a : Action) (e : Env) (w : World) :
  sample_failed a e ->
  (forall b, b <> a -> latched b (perform a e w) = latched b w) /\
  (forall ev, In ev (queue w) -> In ev (queue (perform a e w))) /\
  In (next_event a e w) (queue (perform a e w)) /\
  (forall ev rest,
      queue w = ev :: rest -> action ev = a ->
      Qlt_bool (clock_run e) (time ev) = false ->
      (forall b, b <> a -> latched b (run_pass e w) = latched b w) /\
      (forall ev', In ev' rest -> In ev' (queue (run_pass e w))) /\
      In (next_event a e w) (queue (run_pass e w))).
Proof.
  intros _.
  assert (Hother : forall w0 b, b <> a ->
                                latched b (perform a e w0) = latched b w0)
    by (intros; apply perform_latched_other; assumption).
  split; [apply Hother|].
  split; [intros ev Hin; rewrite perform_queue;
          apply heappush_In_old; exact Hin|].
  split; [rewrite perform_queue; apply heappush_In_new|].
  intros ev rest Hq <- Hdue. unfold run_pass. rewrite Hq, Hdue.
  split; [|split].
  - intros b Hb.
    transitivity (latched b (perform (action ev) e
                     (mark (Began (action ev)) (set_queue rest w)))).
    + destruct b; reflexivity.
    + rewrite Hother by exact Hb. destruct b; reflexivity.
  - intros ev' Hin. cbn [queue mark]. rewrite perform_queue.
    apply heappush_In_old. exact Hin.
  - cbn [queue mark]. rewrite perform_queue. apply heappush_In_new.
Qed.

Lemma failed_sample_isolated_witness :
  sample_failed CheckCpu (all_fail 0 0 false) /\
  latched CheckHdds (perform CheckCpu (all_fail 0 0 false) (main_seed 0 0 0))
  = latched CheckHdds (main_seed 0 0 0).
Proof.
  split; [reflexivity|].
  apply (proj1 (failed_sample_isolated CheckCpu (all_fail 0 0 false)
                                       (main_seed 0 0 0) eq_refl)).
  discriminate.
Defined.

(** ** The scheduler loop *)

Lemma Qlt_bool_false (a b : Q) : (b <= a)%Q -> Qlt_bool a b = false.
Proof.
  intros H. unfold Qlt_bool. apply negb_false_iff, Qle_bool_iff. exact H.
Qed.

Lemma Qlt_bool_true (a b : Q) : (a < b)%Q -> Qlt_bool a b = true.
Proof.
  intros H. unfold Qlt_bool. apply negb_true_iff.
  destruct (Qle_bool b a) eqn:E; trivial.
  apply Qle_bool_iff in E. lra.
Qed.

(** An event due strictly later is never less. *)
Lemma event_lt_later (e1 e2 : Event) :
  (time e2 < time e1)%Q -> event_lt e1 e2 = false.
Proof.
  intros H. unfold event_lt.
  rewrite (Qlt_bool_false (time e1) (time e2)) by lra.
  rewrite (Qlt_bool_true (time e2) (time e1)) by exact H. reflexivity.
Qed.

(** Nor is an event due no earlier and of greater priority number. *)
Lemma event_lt_lower_priority (e1 e2 : Event) :
  (time e2 <= time e1)%Q -> priority e2 < priority e1 ->
  event_lt e1 e2 = false.
Proof.
  intros Ht Hp. unfold event_lt.
  rewrite (Qlt_bool_false (time e1) (time e2)) by exact Ht.
  destruct (Qlt_bool (time e2) (time e1)); trivial.
  destruct (Z.ltb_spec (priority e1) (priority e2)); [lia|].
  destruct (Z.ltb_spec (priority e2) (priority e1)); [reflexivity | lia].
Qed.

Lemma heappush_last (ev : Event) (q : list Event) :
  Forall (fun h => event_lt ev h = false) q -> heappush ev q = q ++ [ev].
Proof.
  induction 1 as [|h rest Hh Hrest IH]; simpl; trivial.
  rewrite Hh, IH. reflexivity.
Qed.

(** A pass whose head event is due pops it, runs its action and returns. *)
Lemma run_pass_due (e : Env) (w : World) (ev : Event) (rest : list Event) :
  queue w = ev :: rest -> (time ev <= clock_run e)%Q ->
  queue (run_pass e w) = heappush (next_event (action ev) e w) rest /\
  history (run_pass e w)
  = history w ++ [Began (action ev); Ended (action ev)] /\
  next_sequence (run_pass e w) = S (next_sequence w).
Proof.
  intros Hq Hdue. unfold run_pass.
  rewrite Hq, (Qlt_bool_false _ _ Hdue).
  cbn [queue history next_sequence mark].
  rewrite perform_queue, perform_history, perform_next_sequence.
  cbn [queue history next_sequence mark set_queue].
  rewrite <- app_assoc. repeat split.
Qed.

Lemma run_pass_history (e : Env) (w : World) :
  exists tail, history (run_pass e w) = history w ++ tail.
Proof.
  unfold run_pass. destruct (queue w) as [|ev rest].
  - exists []. symmetry. apply app_nil_r.
  - destruct (Qlt_bool (clock_run e) (time ev)).
    + exists []. symmetry. apply app_nil_r.
    + exists [Began (action ev); Ended (action ev)].
      cbn [history mark]. rewrite perform_history.
      cbn [history mark]. rewrite <- app_assoc. reflexivity.
Qed.

Lemma run_history (envs : list Env) (w : World) :
  exists tail, history (run envs w) = history w ++ tail.
Proof.
  revert w. induction envs as [|e envs IH]; intros w.
  - exists []. symmetry. apply app_nil_r.
  - destruct (IH (run_pass e w)) as [t2 H2].
    destruct (run_pass_history e w) as [t1 H1].
    exists (t1 ++ t2). change (run (e :: envs) w) with (run envs (run_pass e w)).
    rewrite H2, H1. symmetry. apply app_assoc.
Qed.

(** A property of the state that every cycle and the queue bookkeeping
    preserve holds after any number of passes. *)
Lemma run_preserves (P : World -> Prop) :
  (forall a e w, P w -> P (perform a e w)) ->
  (forall m w, P w -> P (mark m w)) ->
  (forall q w, P w -> P (set_queue q w)) ->
  forall envs w, P w -> P (run envs w).
Proof.
  intros Hperform Hmark Hqueue.
  induction envs as [|e envs IH]; intros w Hw; simpl; trivial.
  apply IH. unfold run_pass.
  destruct (queue w) as [|ev rest]; trivial.
  destruct (Qlt_bool (clock_run e) (time ev)); trivial.
  apply Hmark, Hperform, Hmark, Hqueue, Hw.
Qed.

Lemma calls_stay_in_range (envs : list Env) (w : World) :
  Forall (fun c => 1 <= level c <= 100) (ipmitool_calls w) ->
  Forall (fun c => 1 <= level c <= 100) (ipmitool_calls (run envs w)).
Proof.
  apply (run_preserves
           (fun w => Forall (fun c => 1 <= level c <= 100) (ipmitool_calls w)));
    trivial.
  intros a e w0 H. rewrite perform_arbitrated_calls.
  apply Forall_app. split; [exact H|].
  constructor; [apply clamped_range | constructor].
Qed.

(** C5.  For every integer [n], [set_fan_speed n] runs the actuator command
    exactly once, with [max(1, min(n, 100))], a value in 1..100 whatever [n]
    is; and every actuator command the program has run, after any number of
    scheduler passes, carried a value in 1..100. *)
Theorem set_fan_speed_clamps :
  (forall n ok w,
      ipmitool_calls (set_fan_speed n ok w)
      = ipmitool_calls w ++ [mkCall (Z.max 1 (Z.min n 100)) ok] /\
      Z.max 1 (Z.min n 100) = clamped n /\
      1 <= Z.max 1 (Z.min n 100) <= 100) /\
  (forall t1 t2 t3 envs,
      Forall (fun c => 1 <= level c <= 100)
             (ipmitool_calls (main t1 t2 t3 envs))) /\
  (forall ok w, ipmitool_calls (set_fan_speed (-3) ok w)
                = ipmitool_calls w ++ [mkCall 1 ok]) /\
  (forall ok w, ipmitool_calls (set_fan_speed 0 ok w)
                = ipmitool_calls w ++ [mkCall 1 ok]) /\
  (forall ok w, ipmitool_calls (set_fan_speed 7 ok w)
                = ipmitool_calls w ++ [mkCall 7 ok]) /\
  (forall ok w, ipmitool_calls (set_fan_speed 101 ok w)
                = ipmitool_calls w ++ [mkCall 100 ok]).
Proof.
  split; [|split; [|repeat split]].
  - intros n ok w. repeat split; try lia. apply clamped_max_min.
  - intros t1 t2 t3 envs. apply calls_stay_in_range. constructor.
Qed.

(** C9, as stated, fails: [time.time] may step back.  All three events are
    seeded at clock reading 100; [check_cpu] runs at 100 and ends when the
    clock reads 94, so its next event is due at 99, before the two seeded
    events that are still waiting; the second pass, at 100, runs [check_cpu]
    a second time before [check_hdds] and [check_nic] have run at all. *)
Lemma startup_order_fails_when_clock_steps_back :
  history (main 100 100 100 [mkEnv 100 None None [] true 94;
                             mkEnv 100 None None [] true 101;
                             mkEnv 101 None None [] true 102])
  = [Began CheckCpu; Ended CheckCpu;
     Began CheckCpu; Ended CheckCpu;
     Began CheckHdds; Ended CheckHdds] /\
  ~ (forall (t1 t2 t3 : Q) (e1 e2 e3 : Env) (rest : list Env),
        exists tail,
          history (main t1 t2 t3 (e1 :: e2 :: e3 :: rest))
          = [Began CheckCpu; Ended CheckCpu;
             Began CheckHdds; Ended CheckHdds;
             Began CheckNic; Ended CheckNic] ++ tail).
Proof.
  split; [reflexivity|].
  intros H.
  destruct (H 100%Q 100%Q 100%Q (mkEnv 100 None None [] true 94)
              (mkEnv 100 None None [] true 101)
              (mkEnv 101 None None [] true 102) []) as [tail Htail].
  vm_compute in Htail. discriminate.
Qed.

(** C9, amended.  [main] leaves three events in the queue, one per monitor,
    each due at the clock reading of its own [scheduler.enter] call (delay
    0).  With
    a clock that never goes back, the first three passes of the scheduler
    loop run [check_cpu], [check_hdds] and [check_nic], each from begin to
    end and each once, before anything else runs: no monitor starts a second
    cycle before all three have finished their first. *)
Theorem startup_first_cycles (t1 t2 t3 : Q) (e1 e2 e3 : Env)
    (rest : list Env) :
  clock_monotone [t1; t2; t3; clock_run e1; clock_enter e1;
                  clock_run e2; clock_enter e2; clock_run e3] ->
  queue (main_seed t1 t2 t3)
  = [mkEvent (t1 + inject_Z 0)%Q 1 0 CheckCpu;
     mkEvent (t2 + inject_Z 0)%Q 2 1 CheckHdds;
     mkEvent (t3 + inject_Z 0)%Q 3 2 CheckNic] /\
  Forall2 (fun ev t => (time ev == t)%Q) (queue (main_seed t1 t2 t3))
          [t1; t2; t3] /\
  exists tail,
    history (main t1 t2 t3 (e1 :: e2 :: e3 :: rest))
    = [Began CheckCpu; Ended CheckCpu;
       Began CheckHdds; Ended CheckHdds;
       Began CheckNic; Ended CheckNic] ++ tail.
Proof.
  intros (H12 & H23 & H3a & Ha & Hab & Hb & Hbc & _).
  assert (Hq0 : queue (main_seed t1 t2 t3)
                = [mkEvent (t1 + inject_Z 0)%Q 1 0 CheckCpu;
                   mkEvent (t2 + inject_Z 0)%Q 2 1 CheckHdds;
                   mkEvent (t3 + inject_Z 0)%Q 3 2 CheckNic]).
  { unfold main_seed, scheduler_enter, initial.
    cbn [queue next_sequence heappush].
    rewrite event_lt_lower_priority by clock.
    cbn [heappush].
    rewrite event_lt_lower_priority by clock.
    rewrite event_lt_lower_priority by clock.
    reflexivity. }
  split; [exact Hq0|]. split.
  { rewrite Hq0. repeat constructor; clock. }
  set (w0 := main_seed t1 t2 t3) in *.
  assert (Hn0 : next_sequence w0 = 3%nat) by reflexivity.
  assert (Hh0 : history w0 = []) by reflexivity.
  (* first pass: check_cpu *)
  destruct (run_pass_due e1 w0 _ _ Hq0) as (Hq1 & Hh1 & Hn1); [clock|].
  set (w1 := run_pass e1 w0) in *.
  rewrite heappush_last in Hq1 by (repeat constructor; apply event_lt_later; clock).
  cbn [app action] in Hq1, Hh1.
  (* second pass: check_hdds *)
  destruct (run_pass_due e2 w1 _ _ Hq1) as (Hq2 & Hh2 & Hn2); [clock|].
  set (w2 := run_pass e2 w1) in *.
  rewrite heappush_last in Hq2 by (repeat constructor; apply event_lt_later; clock).
  cbn [app action] in Hq2, Hh2.
  (* third pass: check_nic *)
  destruct (run_pass_due e3 w2 _ _ Hq2) as (_ & Hh3 & _); [clock|].
  set (w3 := run_pass e3 w2) in *.
  cbn [app action] in Hh3.
  destruct (run_history rest w3) as [tail Htail].
  exists tail.
  change (main t1 t2 t3 (e1 :: e2 :: e3 :: rest)) with (run rest w3).
  rewrite Htail, Hh3, Hh2, Hh1, Hh0. reflexivity.
Qed.

Lemma startup_first_cycles_witness :
  clock_monotone [0; 0; 0; 0; 1 # 2; 1 # 2; 1; 1]%Q /\
  exists tail,
    history (main 0 0 0 [mkEnv 0 (Some (of_int 40)) None [] true (1 # 2);
                         mkEnv (1 # 2) None None [] false 1;
                         mkEnv 1 None (Some (of_int 55)) [] true 2])
    = [Began CheckCpu; Ended CheckCpu;
       Began CheckHdds; Ended CheckHdds;
       Began CheckNic; Ended CheckNic] ++ tail.
Proof.
  assert (H : clock_monotone [0; 0; 0; 0; 1 # 2; 1 # 2; 1; 1]%Q)
    by (simpl; repeat split; lra).
  split; [exact H|].
  exact (proj2 (proj2 (startup_first_cycles 0 0 0
           (mkEnv 0 (Some (of_int 40)) None [] true (1 # 2))
           (mkEnv (1 # 2) None None [] false 1)
           (mkEnv 1 None (Some (of_int 55)) [] true 2) [] H))).
Defined.

(** ** Range of the latched values *)

Lemma clamped_id (v : Z) : 1 <= v <= 100 -> clamped v = v.
Proof.
  intros H. unfold clamped.
  destruct (Z.ltb_spec v 1); [lia|].
  destruct (Z.ltb_spec 100 v); lia.
Qed.

Lemma configured_levels_in_1_7 (t : pyfloat) :
  in_1_7 (choose_fan_value t CPU_THRESHOLDS) /\
  in_1_7 (choose_fan_value t NIC_THRESHOLDS) /\
  in_1_7 (choose_fan_value t HDD_THRESHOLDS).
Proof.
  unfold in_1_7, choose_fan_value.
  split; [|split]; apply choose_loop_range; try lia;
    repeat constructor; simpl; lia.
Qed.

Lemma perform_latches_in_1_7 (a : Action) (e : Env) (w : World) :
  latches_in_1_7 w -> latches_in_1_7 (perform a e w).
Proof.
  unfold latches_in_1_7. intros (Hc & Hh & Hn).
  destruct a; simpl; unfold check_cpu, check_nic, check_hdds.
  - destruct (cpu_temp e) as [t|]; simpl; [|tauto].
    destruct (configured_levels_in_1_7 t) as (Kc & _ & _). tauto.
  - simpl.
    destruct (configured_levels_in_1_7
                (max_hdd_loop (Finite 0) (hdd_temperatures e)))
      as (_ & _ & Kh).
    tauto.
  - destruct (nic_temp e) as [t|]; simpl; [|tauto].
    destruct (configured_levels_in_1_7 t) as (_ & Kn & _). tauto.
Qed.

Lemma arbitrated_in_1_7 (w : World) :
  latches_in_1_7 w -> in_1_7 (arbitrated w).
Proof. unfold latches_in_1_7, in_1_7, arbitrated. lia. Qed.

Lemma reachable_in_1_7 (envs : list Env) (w : World) :
  latches_in_1_7 w /\ Forall (fun c => in_1_7 (level c)) (ipmitool_calls w) ->
  latches_in_1_7 (run envs w) /\
  Forall (fun c => in_1_7 (level c)) (ipmitool_calls (run envs w)).
Proof.
  apply (run_preserves
           (fun w => latches_in_1_7 w /\
                     Forall (fun c => in_1_7 (level c)) (ipmitool_calls w)));
    trivial.
  intros a e w0 (Hl & Hc).
  pose proof (perform_latches_in_1_7 a e w0 Hl) as Hl'.
  split; [exact Hl'|].
  rewrite perform_arbitrated_calls. apply Forall_app. split; [exact Hc|].
  constructor; [|constructor]. simpl.
  pose proof (arbitrated_in_1_7 _ Hl') as Ha.
  rewrite clamped_id; unfold in_1_7 in *; lia.
Qed.

(** C10.  The three latched values start at 3; [choose_fan_value] on each
    of the three configured threshold lists returns a value in 1..7 for
    every temperature; so after any number of scheduler passes, under any
    readings, each latched value lies in 1..7, every actuator command run so
    far carried a value in 1..7, and the clamp of [set_fan_speed] leaves the
    maximum of the three latched values as it is, now and in any cycle run
    next. *)
Theorem latches_stay_in_1_7 (t1 t2 t3 : Q) (envs : list Env) :
  latches_in_1_7 (main t1 t2 t3 envs) /\
  Forall (fun c => in_1_7 (level c)) (ipmitool_calls (main t1 t2 t3 envs)) /\
  Z.max 1 (Z.min (arbitrated (main t1 t2 t3 envs)) 100)
  = arbitrated (main t1 t2 t3 envs) /\
  (forall a e,
      ipmitool_calls (perform a e (main t1 t2 t3 envs))
      = ipmitool_calls (main t1 t2 t3 envs)
        ++ [mkCall (arbitrated (perform a e (main t1 t2 t3 envs)))
                   (ipmitool_ok e)]) /\
  (cpu_fan_speed initial = 3 /\ hdd_fan_speed initial = 3 /\
   nic_fan_speed initial = 3) /\
  (forall t, in_1_7 (choose_fan_value t CPU_THRESHOLDS) /\
             in_1_7 (choose_fan_value t NIC_THRESHOLDS) /\
             in_1_7 (choose_fan_value t HDD_THRESHOLDS)).
Proof.
  destruct (reachable_in_1_7 envs (main_seed t1 t2 t3)) as (Hl & Hc).
  { split; [|constructor]. unfold latches_in_1_7, in_1_7. simpl. lia. }
  fold (main t1 t2 t3 envs) in Hl, Hc.
  split; [exact Hl|]. split; [exact Hc|].
  pose proof (arbitrated_in_1_7 _ Hl) as Ha. unfold in_1_7 in Ha.
  split; [lia|]. split.
  - intros a e. rewrite perform_arbitrated_calls.
    pose proof (arbitrated_in_1_7 _ (perform_latches_in_1_7 a e _ Hl)) as Ha'.
    unfold in_1_7 in Ha'. rewrite clamped_id by lia. reflexivity.
  - split; [repeat split|]. apply configured_levels_in_1_7.
Qed.

(** ** More on the threshold map: lists in any order *)

Lemma last_default (l : list Z) (a b : Z) :
  l <> [] -> last l a = last l b.
Proof.
  induction l as [|x [|y l] IH]; intros H; trivial; [congruence|].
  change (last (y :: l) a = last (y :: l) b). apply IH. discriminate.
Qed.

Lemma choose_loop_prefix (c : Z) (t : pyfloat) (tb : thresholds_t) :
  choose_loop c t tb = last (map snd (reached_prefix t tb)) c.
Proof.
  revert c. induction tb as [|[th lv] rest IH]; intros c; simpl; trivial.
  destruct (ge_int t th); trivial.
  rewrite IH. simpl.
  destruct (map snd (reached_prefix t rest)) as [|x xs] eqn:E; trivial.
  apply last_default. discriminate.
Qed.

Lemma choose_loop_cut (c : Z) (t : pyfloat) (tb1 tb2 : thresholds_t)
    (e : Z * Z) :
  ge_int t (fst e) = false ->
  choose_loop c t (tb1 ++ e :: tb2) = choose_loop c t tb1.
Proof.
  intros He. revert c.
  induction tb1 as [|[th lv] rest IH]; intros c; simpl.
  - destruct e as [th lv]. simpl in He. rewrite He. reflexivity.
  - destruct (ge_int t th); trivial.
Qed.

(** X1.  On any threshold list, sorted or not, [choose_fan_value] returns the
    fan value of the last entry of the longest prefix whose thresholds the
    temperature reaches, and 1 when that prefix is empty. *)
Theorem choose_fan_value_reached_prefix (t : pyfloat) (tb : thresholds_t) :
  choose_fan_value t tb = last (map snd (reached_prefix t tb)) 1.
Proof. apply choose_loop_prefix. Qed.

(** X2.  Everything behind the first entry whose threshold the temperature does
    not reach is ignored, also entries the temperature would reach. *)
Theorem choose_fan_value_ignores_after_break (t : pyfloat)
    (tb1 tb2 : thresholds_t) (e : Z * Z) :
  ge_int t (fst e) = false ->
  choose_fan_value t (tb1 ++ e :: tb2) = choose_fan_value t tb1.
Proof. apply choose_loop_cut. Qed.

Lemma choose_fan_value_ignores_after_break_witness :
  ge_int (of_int 20) (fst (50, 5)) = false /\
  choose_fan_value (of_int 20) ([(5, 2)] ++ (50, 5) :: [(10, 4)])
  = choose_fan_value (of_int 20) [(5, 2)] /\
  choose_fan_value (of_int 20) [(5, 2); (50, 5); (10, 4)] = 2.
Proof.
  split; [reflexivity|]. split; [|reflexivity].
  apply (choose_fan_value_ignores_after_break (of_int 20) [(5, 2)] [(10, 4)]
           (50, 5) eq_refl).
Defined.

(** X3.  [choose_fan_value] never makes up a fan value: the result is 1 or a
    fan value of an entry whose threshold the temperature reaches. *)
Theorem choose_fan_value_from_table (t : pyfloat) (tb : thresholds_t) :
  choose_fan_value t tb = 1 \/
  exists th, In (th, choose_fan_value t tb) tb /\ ge_int t th = true.
Proof.
  unfold choose_fan_value.
  assert (H : forall c, choose_loop c t tb = c \/
                        exists th, In (th, choose_loop c t tb) tb /\
                                   ge_int t th = true).
  { induction tb as [|[th lv] rest IH]; intros c; simpl; [now left|].
    destruct (ge_int t th) eqn:E; [|now left].
    right. destruct (IH lv) as [-> | (th' & Hin & Hge)].
    - exists th. split; [now left | exact E].
    - exists th'. split; [now right | exact Hge]. }
  apply H.
Qed.

(** ** The configured fan curves *)

Lemma ge_int_false_up (t : pyfloat) (a b : Z) :
  a <= b -> ge_int t a = false -> ge_int t b = false.
Proof.
  intros Hab Ha. destruct (ge_int t b) eqn:Hb; trivial.
  rewrite (ge_int_antitone t b a Hab Hb) in Ha. discriminate.
Qed.

(** X4.  The processor list and the network-adapter list define the same curve
    of five bands, for every temperature: 1 below 37, 3 from 37, 5 from 54,
    6 from 69 and 7 from 80 degrees. *)
Theorem cpu_nic_curve (t : pyfloat) :
  choose_fan_value t CPU_THRESHOLDS = cpu_curve t /\
  choose_fan_value t NIC_THRESHOLDS = cpu_curve t.
Proof.
  unfold choose_fan_value, CPU_THRESHOLDS, NIC_THRESHOLDS, cpu_curve.
  cbn [choose_loop].
  split; split_bands t ge_int_antitone ge_int_false_up.
Qed.

(** X5.  The storage list defines a curve of seven bands, for every temperature:
    1 below 22, 2 from 22, 3 from 37, 4 from 47, 5 from 51, 6 from 57 and 7
    from 61 degrees. *)
Theorem hdd_curve_bands (t : pyfloat) :
  choose_fan_value t HDD_THRESHOLDS = hdd_curve t.
Proof.
  unfold choose_fan_value, HDD_THRESHOLDS, hdd_curve.
  cbn [choose_loop]. split_bands t ge_int_antitone ge_int_false_up.
Qed.

(** ** The representative storage temperature *)

Lemma gt_float_le (x y : pyfloat) :
  gt_float x y = true -> le_float y x = true /\ is_nan x = false.
Proof.
  destruct x as [a| | |], y as [b| | |]; simpl; try discriminate; auto.
  intros H. apply negb_true_iff in H. split; trivial.
  apply Qle_bool_iff.
  destruct (Qle_bool a b) eqn:E; [discriminate|].
  destruct (Qlt_le_dec a b) as [Hlt | Hle]; trivial.
  assert (Hab : (a <= b)%Q) by lra.
  apply Qle_bool_iff in Hab. congruence.
Qed.

Lemma not_gt_float_le (x y : pyfloat) :
  gt_float x y = false -> is_nan x = false -> is_nan y = false ->
  le_float x y = true.
Proof.
  destruct x as [a| | |], y as [b| | |]; simpl; try discriminate; auto.
  intros H _ _. apply negb_false_iff in H. exact H.
Qed.

Lemma le_float_refl (x : pyfloat) : is_nan x = false -> le_float x x = true.
Proof.
  destruct x as [a| | |]; simpl; try discriminate; auto.
  intros _. apply Qle_bool_iff. lra.
Qed.

Lemma le_float_trans (x y z : pyfloat) :
  le_float x y = true -> le_float y z = true -> le_float x z = true.
Proof.
  destruct x as [a| | |], y as [b| | |], z as [c| | |]; simpl;
    try discriminate; auto.
  intros H1 H2. apply Qle_bool_iff in H1, H2. apply Qle_bool_iff. lra.
Qed.

Lemma max_hdd_loop_cons (m : pyfloat) (item : string * pyfloat)
    (items : list (string * pyfloat)) :
  max_hdd_loop m (item :: items)
  = max_hdd_loop (if gt_float (snd item) m then snd item else m) items.
Proof. reflexivity. Qed.

Lemma max_hdd_loop_inv (items : list (string * pyfloat)) (m0 : pyfloat) :
  is_nan m0 = false ->
  is_nan (max_hdd_loop m0 items) = false /\
  le_float m0 (max_hdd_loop m0 items) = true /\
  (max_hdd_loop m0 items = m0 \/
   In (max_hdd_loop m0 items) (map snd items)) /\
  (forall item, In item items -> is_nan (snd item) = false ->
                le_float (snd item) (max_hdd_loop m0 items) = true).
Proof.
  revert m0. induction items as [|[dev t] items IH]; intros m0 Hm0.
  - repeat split; auto using le_float_refl; try (intros item []).
  - rewrite max_hdd_loop_cons. cbn [snd map].
    destruct (gt_float t m0) eqn:Hgt.
    + destruct (gt_float_le _ _ Hgt) as (Hle & Hnan).
      destruct (IH t Hnan) as (I1 & I2 & I3 & I4).
      repeat split; trivial.
      * eapply le_float_trans; eassumption.
      * right. destruct I3 as [-> | Hin]; [now left | now right].
      * intros item [<- | Hin] Hn; [exact I2 | apply I4; assumption].
    + destruct (IH m0 Hm0) as (I1 & I2 & I3 & I4).
      repeat split; trivial.
      * destruct I3 as [-> | Hin]; [now left | right; now right].
      * intros item [<- | Hin] Hn; [|apply I4; assumption].
        cbn [snd] in *.
        eapply le_float_trans; [|exact I2].
        apply not_gt_float_le; assumption.
Qed.

(** X6.  The temperature [check_hdds] maps is never NaN and never below 0.0; it
    is 0.0 or one of the readings, and no reading that is a number exceeds
    it: NaN readings and readings below 0.0 are passed over. *)
Theorem max_hdd_temp_is_floored_maximum (items : list (string * pyfloat)) :
  is_nan (max_hdd_loop (Finite 0) items) = false /\
  le_float (Finite 0) (max_hdd_loop (Finite 0) items) = true /\
  (max_hdd_loop (Finite 0) items = Finite 0 \/
   In (max_hdd_loop (Finite 0) items) (map snd items)) /\
  (forall item, In item items -> is_nan (snd item) = false ->
                le_float (snd item) (max_hdd_loop (Finite 0) items) = true).
Proof. apply max_hdd_loop_inv. reflexivity. Qed.

Lemma max_hdd_temp_is_floored_maximum_witness :
  In ("/dev/nvme1"%string, of_int 41)
     [("/dev/nvme0"%string, of_int 38); ("/dev/nvme1"%string, of_int 41)] /\
  is_nan (of_int 41) = false /\
  le_float (of_int 41)
           (max_hdd_loop (Finite 0)
              [("/dev/nvme0"%string, of_int 38);
               ("/dev/nvme1"%string, of_int 41)]) = true.
Proof.
  split; [right; left; reflexivity|]. split; [reflexivity|].
  apply (proj2 (proj2 (proj2 (max_hdd_temp_is_floored_maximum
           [("/dev/nvme0"%string, of_int 38);
            ("/dev/nvme1"%string, of_int 41)])))
           ("/dev/nvme1"%string, of_int 41)).
  - right; left; reflexivity.
  - reflexivity.
Defined.

Lemma NIC_THRESHOLDS_levels : levels_non_decreasing NIC_THRESHOLDS.
Proof. exact CPU_THRESHOLDS_levels. Qed.

Lemma NIC_THRESHOLDS_at_least_one : levels_at_least_one NIC_THRESHOLDS.
Proof. exact CPU_THRESHOLDS_at_least_one. Qed.

Lemma HDD_THRESHOLDS_levels : levels_non_decreasing HDD_THRESHOLDS.
Proof.
  unfold levels_non_decreasing, HDD_THRESHOLDS.
  repeat (constructor; [|repeat constructor; simpl; lia]). constructor.
Qed.

Lemma HDD_THRESHOLDS_at_least_one : levels_at_least_one HDD_THRESHOLDS.
Proof.
  unfold levels_at_least_one, HDD_THRESHOLDS. repeat constructor; simpl; lia.
Qed.

Section MonotoneTable.

Variable tb : thresholds_t.
Hypothesis tb_levels : levels_non_decreasing tb.
Hypothesis tb_floor : levels_at_least_one tb.

Lemma choose_at_least_one (t : pyfloat) : 1 <= choose_fan_value t tb.
Proof. apply choose_loop_lower; assumption. Qed.

Lemma choose_le (t1 t2 : pyfloat) :
  le_float t1 t2 = true -> choose_fan_value t1 tb <= choose_fan_value t2 tb.
Proof. intros H. apply choose_loop_monotone; assumption. Qed.

Lemma choose_nan : choose_fan_value NaN tb = 1.
Proof. apply choose_loop_none. intros e _. reflexivity. Qed.

Lemma hottest_at_least_one (items : list (string * pyfloat)) :
  1 <= hottest_level tb items.
Proof.
  unfold hottest_level. induction items as [|x items IH]; simpl; lia.
Qed.

Lemma choose_max_hdd_loop (items : list (string * pyfloat)) (m0 : pyfloat) :
  is_nan m0 = false ->
  choose_fan_value (max_hdd_loop m0 items) tb
  = Z.max (choose_fan_value m0 tb) (hottest_level tb items).
Proof.
  revert m0. induction items as [|[dev t] items IH]; intros m0 Hm0.
  - change (max_hdd_loop m0 []) with m0.
    pose proof (choose_at_least_one m0). unfold hottest_level. simpl. lia.
  - rewrite max_hdd_loop_cons. cbn [snd].
    change (hottest_level tb ((dev, t) :: items))
      with (Z.max (choose_fan_value t tb) (hottest_level tb items)).
    destruct (gt_float t m0) eqn:Hgt.
    + destruct (gt_float_le _ _ Hgt) as (Hle & Hnan).
      rewrite (IH t Hnan). pose proof (choose_le _ _ Hle). lia.
    + rewrite (IH m0 Hm0).
      assert (choose_fan_value t tb <= choose_fan_value m0 tb).
      { destruct (is_nan t) eqn:Hn.
        - destruct t; try discriminate. rewrite choose_nan.
          apply choose_at_least_one.
        - apply choose_le, not_gt_float_le; assumption. }
      lia.
Qed.

End MonotoneTable.

Lemma hottest_level_permutation (tb : thresholds_t)
    (items items' : list (string * pyfloat)) :
  Permutation items items' -> hottest_level tb items = hottest_level tb items'.
Proof.
  unfold hottest_level.
  induction 1 as [|x l l' _ IH|x y l|l l' l'' _ IH1 _ IH2]; simpl; lia.
Qed.

Lemma check_hdds_latch (e : Env) (w : World) :
  hdd_fan_speed (check_hdds e w)
  = hottest_level HDD_THRESHOLDS (hdd_temperatures e).
Proof.
  change (hdd_fan_speed (check_hdds e w))
    with (choose_fan_value (max_hdd_loop (Finite 0) (hdd_temperatures e))
                           HDD_THRESHOLDS).
  rewrite (choose_max_hdd_loop HDD_THRESHOLDS HDD_THRESHOLDS_levels
             HDD_THRESHOLDS_at_least_one) by reflexivity.
  pose proof (hottest_at_least_one HDD_THRESHOLDS (hdd_temperatures e)).
  change (choose_fan_value (Finite 0) HDD_THRESHOLDS) with 1. lia.
Qed.

(** ** The storage cycle and its devices *)

(** X7.  The hottest device decides: the value [check_hdds] latches is the
    greatest of the fan values of the single device readings, and 1 when
    the dict is empty; mapping the maximum temperature and taking the
    maximum of the mapped values agree on the storage list. *)
Theorem check_hdds_hottest_device (e : Env) (w : World) :
  hdd_fan_speed (check_hdds e w)
  = hottest_level HDD_THRESHOLDS (hdd_temperatures e).
Proof. apply check_hdds_latch. Qed.

(** X8.  The order in which the dict lists the devices has no influence on the
    latched storage value. *)
Theorem check_hdds_order_irrelevant (items items' : list (string * pyfloat))
    (t_run t_enter : Q) (cpu nic : option pyfloat) (ok : bool) (w : World) :
  Permutation items items' ->
  hdd_fan_speed (check_hdds (mkEnv t_run cpu nic items ok t_enter) w)
  = hdd_fan_speed (check_hdds (mkEnv t_run cpu nic items' ok t_enter) w).
Proof.
  intros H. rewrite 2 check_hdds_latch. cbn [hdd_temperatures].
  apply hottest_level_permutation. exact H.
Qed.

Lemma check_hdds_order_irrelevant_witness :
  Permutation [("/dev/nvme0"%string, of_int 38);
               ("/dev/nvme1"%string, of_int 52)]
              [("/dev/nvme1"%string, of_int 52);
               ("/dev/nvme0"%string, of_int 38)] /\
  hdd_fan_speed (check_hdds (mkEnv 0 None None
                   [("/dev/nvme0"%string, of_int 38);
                    ("/dev/nvme1"%string, of_int 52)] true 0) initial)
  = hdd_fan_speed (check_hdds (mkEnv 0 None None
                     [("/dev/nvme1"%string, of_int 52);
                      ("/dev/nvme0"%string, of_int 38)] true 0) initial).
Proof.
  split; [apply perm_swap|].
  apply (check_hdds_order_irrelevant _ _ 0 0 None None true initial).
  apply perm_swap.
Defined.

(** X9.  A further device reading never lowers the latched storage value. *)
Theorem check_hdds_more_devices_never_lower
    (items more : list (string * pyfloat))
    (t_run t_enter : Q) (cpu nic : option pyfloat) (ok : bool) (w : World) :
  hdd_fan_speed (check_hdds (mkEnv t_run cpu nic items ok t_enter) w)
  <= hdd_fan_speed (check_hdds (mkEnv t_run cpu nic (items ++ more) ok
                                      t_enter) w).
Proof.
  rewrite 2 check_hdds_latch. cbn [hdd_temperatures].
  unfold hottest_level. rewrite map_app.
  induction items as [|x items IH]; simpl.
  - apply (hottest_at_least_one HDD_THRESHOLDS more).
  - lia.
Qed.

(** ** Hotter readings and the actuator *)

Lemma clamped_monotone (a b : Z) : a <= b -> clamped a <= clamped b.
Proof. intros H. rewrite <- 2 clamped_max_min. lia. Qed.

(** X10.  With all other answers and the state equal, a hotter processor reading
    makes [check_cpu] send the actuator a value that is not lower, and a
    hotter network-adapter reading does the same for [check_nic]. *)
Theorem hotter_reading_never_lowers_fan (t1 t2 : pyfloat)
    (t_run t_enter : Q) (other : option pyfloat)
    (hdds : list (string * pyfloat)) (ok : bool) (w : World) :
  le_float t1 t2 = true ->
  (exists l1 l2,
      ipmitool_calls (check_cpu (mkEnv t_run (Some t1) other hdds ok t_enter) w)
      = ipmitool_calls w ++ [mkCall l1 ok] /\
      ipmitool_calls (check_cpu (mkEnv t_run (Some t2) other hdds ok t_enter) w)
      = ipmitool_calls w ++ [mkCall l2 ok] /\
      l1 <= l2) /\
  (exists l1 l2,
      ipmitool_calls (check_nic (mkEnv t_run other (Some t1) hdds ok t_enter) w)
      = ipmitool_calls w ++ [mkCall l1 ok] /\
      ipmitool_calls (check_nic (mkEnv t_run other (Some t2) hdds ok t_enter) w)
      = ipmitool_calls w ++ [mkCall l2 ok] /\
      l1 <= l2).
Proof.
  intros Hle.
  pose proof (choose_le CPU_THRESHOLDS CPU_THRESHOLDS_levels
                CPU_THRESHOLDS_at_least_one t1 t2 Hle) as Hcpu.
  pose proof (choose_le NIC_THRESHOLDS NIC_THRESHOLDS_levels
                NIC_THRESHOLDS_at_least_one t1 t2 Hle) as Hnic.
  split.
  - eexists _, _. split; [|split].
    + exact (perform_arbitrated_calls CheckCpu _ w).
    + exact (perform_arbitrated_calls CheckCpu _ w).
    + apply clamped_monotone. unfold arbitrated. simpl. lia.
  - eexists _, _. split; [|split].
    + exact (perform_arbitrated_calls CheckNic _ w).
    + exact (perform_arbitrated_calls CheckNic _ w).
    + apply clamped_monotone. unfold arbitrated. simpl. lia.
Qed.

Lemma hotter_reading_never_lowers_fan_witness :
  le_float (of_int 40) (of_int 70) = true /\
  exists l1 l2,
    ipmitool_calls (check_cpu (mkEnv 0 (Some (of_int 40)) None [] true 0)
                              initial)
    = ipmitool_calls initial ++ [mkCall l1 true] /\
    ipmitool_calls (check_cpu (mkEnv 0 (Some (of_int 70)) None [] true 0)
                              initial)
    = ipmitool_calls initial ++ [mkCall l2 true] /\
    l1 <= l2.
Proof.
  split; [reflexivity|].
  exact (proj1 (hotter_reading_never_lowers_fan (of_int 40) (of_int 70) 0 0
                  None [] true initial eq_refl)).
Defined.

(** ** Invariants of the scheduler loop *)

Lemma run_pass_cases (e : Env) (w : World) :
  run_pass e w = w \/
  exists ev rest,
    queue w = ev :: rest /\
    run_pass e w
    = mark (Ended (action ev))
           (perform (action ev) e
                    (mark (Began (action ev)) (set_queue rest w))).
Proof.
  unfold run_pass. destruct (queue w) as [|ev rest]; [now left|].
  destruct (Qlt_bool (clock_run e) (time ev)); [now left|].
  right. exists ev, rest. split; reflexivity.
Qed.

(** A property every pass keeps, under answers of a given kind, holds
    after any number of such passes. *)
Lemma run_keeps (P : World -> Prop) (A : Env -> Prop) :
  (forall e w, A e -> P w -> P (run_pass e w)) ->
  forall envs w, Forall A envs -> P w -> P (run envs w).
Proof.
  intros Hpass. induction envs as [|e envs IH]; intros w HA Hw; trivial.
  inversion HA as [|? ? He Hrest]; subst.
  change (run (e :: envs) w) with (run envs (run_pass e w)).
  apply IH; [exact Hrest | apply Hpass; assumption].
Qed.

Lemma Forall_any (envs : list Env) : Forall (fun _ => True) envs.
Proof. induction envs; constructor; trivial. Qed.

Lemma started_app (h1 h2 : list Mark) :
  started (h1 ++ h2) = started h1 ++ started h2.
Proof.
  induction h1 as [|[a|a] h1 IH]; simpl; trivial. rewrite IH. reflexivity.
Qed.

Lemma heappush_permutation (ev : Event) (q : list Event) :
  Permutation (heappush ev q) (ev :: q).
Proof.
  induction q as [|h rest IH]; simpl; [apply Permutation_refl|].
  destruct (event_lt ev h); [apply Permutation_refl|].
  eapply perm_trans; [apply perm_skip, IH | apply perm_swap].
Qed.

(** X11.  Every monitor cycle the scheduler has started has run the actuator
    command exactly once, and nothing else has run it: after any number of
    passes there are as many commands as started cycles. *)
Theorem one_command_per_cycle (t1 t2 t3 : Q) (envs : list Env) :
  List.length (ipmitool_calls (main t1 t2 t3 envs))
  = List.length (started (history (main t1 t2 t3 envs))).
Proof.
  apply (run_keeps
           (fun w => List.length (ipmitool_calls w) = List.length (started (history w)))
           (fun _ => True)); [|apply Forall_any|reflexivity].
  intros e w _ Hw.
  destruct (run_pass_cases e w) as [-> | (ev & rest & Hq & ->)]; trivial.
  cbn [ipmitool_calls history mark].
  rewrite perform_arbitrated_calls, perform_history.
  cbn [ipmitool_calls history mark set_queue].
  rewrite !started_app, !length_app. simpl. lia.
Qed.

(** X12.  After [main] has seeded the queue, and after any number of passes, the
    queue holds exactly one pending event for each of the three monitors:
    no monitor is lost or doubled, and the queue is never empty, so
    [scheduler.run] never returns. *)
Theorem one_pending_event_per_monitor (t1 t2 t3 : Q) (envs : list Env) :
  Permutation (map action (queue (main t1 t2 t3 envs)))
              [CheckCpu; CheckHdds; CheckNic] /\
  queue (main t1 t2 t3 envs) <> [].
Proof.
  assert (H : Permutation (map action (queue (main t1 t2 t3 envs)))
                          [CheckCpu; CheckHdds; CheckNic]).
  { apply (run_keeps
             (fun w => Permutation (map action (queue w))
                                   [CheckCpu; CheckHdds; CheckNic])
             (fun _ => True)); [|apply Forall_any|].
    - intros e w _ Hw.
      destruct (run_pass_cases e w) as [-> | (ev & rest & Hq & ->)]; trivial.
      cbn [queue mark]. rewrite perform_queue. cbn [queue mark set_queue].
      rewrite Hq in Hw.
      eapply perm_trans; [|exact Hw].
      eapply perm_trans; [apply Permutation_map, heappush_permutation|].
      apply Permutation_refl.
    - unfold main_seed, scheduler_enter. cbn [queue next_sequence initial].
      eapply perm_trans; [apply Permutation_map, heappush_permutation|].
      cbn [map action].
      eapply perm_trans;
        [apply perm_skip, Permutation_map, heappush_permutation|].
      cbn [map action].
      apply Permutation_sym.
      exact (Permutation_rev [CheckCpu; CheckHdds; CheckNic]). }
  split; [exact H|].
  intros Hnil. rewrite Hnil in H. simpl in H.
  apply Permutation_nil in H. discriminate.
Qed.

Lemma arbitrated_ge_latched (a : Action) (w : World) :
  latched a w <= arbitrated w.
Proof. unfold arbitrated. destruct a; simpl; lia. Qed.

(** X13.  Between two passes of the scheduler loop the actuator is up to date:
    the last command that was run, if any, carried exactly the maximum of
    the three latched values as they are now. *)
Theorem actuator_follows_latches (t1 t2 t3 : Q) (envs : list Env) :
  actuator_current (main t1 t2 t3 envs).
Proof.
  apply (run_preserves
           (fun w => latches_in_1_7 w /\ actuator_current w)).
  - intros a e w (Hl & _).
    pose proof (perform_latches_in_1_7 a e w Hl) as Hl'.
    split; [exact Hl'|]. right.
    exists (ipmitool_calls w), (ipmitool_ok e).
    rewrite perform_arbitrated_calls.
    pose proof (arbitrated_in_1_7 _ Hl') as Ha. unfold in_1_7 in Ha.
    rewrite clamped_id by lia. reflexivity.
  - intros m w H. exact H.
  - intros q w H. exact H.
  - split; [|now left]. unfold latches_in_1_7, in_1_7. simpl. lia.
Qed.

(** X14.  A processor or network-adapter monitor whose sample fails in every
    pass keeps the start value 3 for good, and then no actuator command is
    ever below 3, whatever the other monitors read. *)
Theorem unread_monitor_holds_fan_at_3 (a : Action) (t1 t2 t3 : Q)
    (envs : list Env) :
  a <> CheckHdds -> Forall (sample_failed a) envs ->
  latched a (main t1 t2 t3 envs) = 3 /\
  Forall (fun c => 3 <= level c) (ipmitool_calls (main t1 t2 t3 envs)).
Proof.
  intros Ha Hfail.
  apply (run_keeps
           (fun w => latched a w = 3 /\
                     Forall (fun c => 3 <= level c) (ipmitool_calls w))
           (sample_failed a)); trivial.
  - intros e w He (Hl & Hc).
    destruct (run_pass_cases e w) as [-> | (ev & rest & Hq & ->)];
      [split; assumption|].
    set (w0 := mark (Began (action ev)) (set_queue rest w)).
    assert (Hl0 : latched a w0 = 3) by (rewrite <- Hl; destruct a; reflexivity).
    assert (Hl1 : latched a (perform (action ev) e w0) = 3).
    { rewrite <- Hl0. destruct a, (action ev) eqn:Eb; try congruence;
        first [ apply perform_latched_other; discriminate
              | apply perform_latched_failed; [discriminate | exact He] ]. }
    split.
    + rewrite <- Hl1. destruct a; reflexivity.
    + cbn [ipmitool_calls mark]. rewrite perform_arbitrated_calls.
      apply Forall_app. split; [exact Hc|].
      constructor; [|constructor]. cbn [level].
      pose proof (arbitrated_ge_latched a (perform (action ev) e w0)) as Hge.
      rewrite Hl1 in Hge.
      change 3 with (clamped 3) at 1. apply clamped_monotone. exact Hge.
  - split; [destruct a; reflexivity | constructor].
Qed.

Lemma unread_monitor_holds_fan_at_3_witness :
  CheckCpu <> CheckHdds /\
  Forall (sample_failed CheckCpu)
         [mkEnv 0 None (Some (of_int 20)) [] true 0;
          mkEnv 1 None None [] true 1] /\
  latched CheckCpu
          (main 0 0 0 [mkEnv 0 None (Some (of_int 20)) [] true 0;
                       mkEnv 1 None None [] true 1]) = 3.
Proof.
  assert (H : Forall (sample_failed CheckCpu)
                     [mkEnv 0 None (Some (of_int 20)) [] true 0;
                      mkEnv 1 None None [] true 1])
    by (repeat constructor).
  split; [discriminate|]. split; [exact H|].
  exact (proj1 (unread_monitor_holds_fan_at_3 CheckCpu 0 0 0 _
                  ltac:(discriminate) H)).
Defined.

(** X15.  The first actuator command after start is never below 3: whichever
    monitor runs first, the other two latched values still hold their start
    value. *)
Theorem first_command_at_least_3 (t1 t2 t3 : Q) (envs : list Env) :
  match ipmitool_calls (main t1 t2 t3 envs) with
  | [] => True
  | first :: _ => 3 <= level first
  end.
Proof.
  assert (H : (ipmitool_calls (main t1 t2 t3 envs) = [] /\
               forall a, latched a (main t1 t2 t3 envs) = 3) \/
              exists first later,
                ipmitool_calls (main t1 t2 t3 envs) = first :: later /\
                3 <= level first).
  { apply (run_preserves
             (fun w => (ipmitool_calls w = [] /\ forall a, latched a w = 3) \/
                       exists first later,
                         ipmitool_calls w = first :: later /\
                         3 <= level first)).
    - intros a e w [(Hnil & Hl) | (first & later & Hc & Hf)]; right;
        rewrite perform_arbitrated_calls.
      + rewrite Hnil. eexists _, []. split; [reflexivity|]. cbn [level].
        assert (Hb : exists b, b <> a)
          by (destruct a; [exists CheckHdds | exists CheckCpu | exists CheckCpu];
              discriminate).
        destruct Hb as (b & Hb).
        pose proof (arbitrated_ge_latched b (perform a e w)) as Hge.
        rewrite (perform_latched_other a b e w Hb), Hl in Hge.
        change 3 with (clamped 3) at 1. apply clamped_monotone. exact Hge.
      + rewrite Hc. eexists first, _. split; [reflexivity | exact Hf].
    - intros m w H. exact H.
    - intros q w H. exact H.
    - left. split; [reflexivity | intros a; destruct a; reflexivity]. }
  destruct H as [(-> & _) | (first & later & -> & Hf)]; trivial.
Qed.

(** ** The sensor readers *)

Lemma dict_set_In_new (k : string) (v : pyfloat) (d : list (string * pyfloat)) :
  In (k, v) (dict_set k v d).
Proof.
  induction d as [|[k' v'] rest IH]; simpl; [now left|].
  destruct (String.eqb_spec k' k) as [-> | Hne]; [now left | now right].
Qed.

Lemma dict_set_In_keep (k k0 : string) (v v0 : pyfloat)
    (d : list (string * pyfloat)) :
  k0 <> k -> In (k0, v0) d -> In (k0, v0) (dict_set k v d).
Proof.
  intros Hne. induction d as [|[k' v'] rest IH]; simpl; [tauto|].
  intros [Heq | Hin].
  - injection Heq as -> ->.
    destruct (String.eqb_spec k0 k); [contradiction | now left].
  - destruct (String.eqb k' k); right; auto.
Qed.

Lemma dict_set_In_inv (k k0 : string) (v v0 : pyfloat)
    (d : list (string * pyfloat)) :
  In (k0, v0) (dict_set k v d) -> (k0 = k /\ v0 = v) \/ In (k0, v0) d.
Proof.
  induction d as [|[k' v'] rest IH]; simpl.
  - intros [Heq | []]. injection Heq as <- <-. now left.
  - destruct (String.eqb_spec k' k) as [-> | Hne]; simpl.
    + intros [Heq | Hin]; [injection Heq as <- <-; now left | right; now right].
    + intros [Heq | Hin]; [right; now left|].
      destruct (IH Hin) as [H | H]; [now left | right; now right].
Qed.

Lemma dict_set_keys (k : string) (v : pyfloat) (d : list (string * pyfloat)) :
  (In k (map fst d) /\ map fst (dict_set k v d) = map fst d) \/
  (~ In k (map fst d) /\ map fst (dict_set k v d) = map fst d ++ [k]).
Proof.
  induction d as [|[k' v'] rest IH]; simpl; [right; tauto|].
  destruct (String.eqb_spec k' k) as [-> | Hne]; simpl; [left; tauto|].
  destruct IH as [(Hin & ->) | (Hnin & ->)]; [left | right]; intuition.
Qed.

Section ReaderFacts.

Variable re_search : string -> string -> option string.
Variable float : string -> option pyfloat.

Lemma hdd_loop_keys (output : string) (devices : list string) :
  forall d d',
    hdd_loop re_search float devices output d = Some d' ->
    NoDup (map fst d) ->
    NoDup (map fst d') /\
    incl (map fst d') (map fst d ++ devices) /\
    (List.length d' <= List.length d + List.length devices)%nat.
Proof.
  induction devices as [|nvme rest IH]; intros d d' Hloop Hnd; simpl in Hloop.
  - injection Hloop as <-. rewrite app_nil_r.
    repeat split; [exact Hnd | apply incl_refl | lia].
  - destruct (re_search (hdd_pattern nvme) output) as [temp|].
    + destruct (float temp) as [v|]; [|discriminate].
      assert (Hset : NoDup (map fst (dict_set nvme v d)) /\
                     incl (map fst (dict_set nvme v d)) (map fst d ++ [nvme]) /\
                     (List.length (map fst (dict_set nvme v d))
                      <= S (List.length (map fst d)))%nat).
      { destruct (dict_set_keys nvme v d) as [(Hin & ->) | (Hnin & ->)].
        - repeat split; [exact Hnd | apply incl_appl, incl_refl | lia].
        - repeat split.
          + apply NoDup_app; [exact Hnd | repeat constructor; intros [] |].
            intros x Hx [<- | []]. contradiction.
          + apply incl_refl.
          + rewrite length_app. simpl. lia. }
      destruct Hset as (S1 & S2 & S3).
      destruct (IH _ _ Hloop S1) as (I1 & I2 & I3).
      rewrite !length_map in S3.
      repeat split; [exact I1 | | simpl; lia].
      intros x Hx. apply I2 in Hx. apply in_app_or in Hx.
      destruct Hx as [Hx | Hx].
      * apply S2 in Hx. apply in_app_or in Hx. apply in_or_app.
        destruct Hx as [Hx | [<- | []]]; [now left | right; now left].
      * apply in_or_app. right. now right.
    + destruct (IH _ _ Hloop Hnd) as (I1 & I2 & I3).
      repeat split; [exact I1 | | simpl; lia].
      intros x Hx. apply I2 in Hx. apply in_app_or in Hx. apply in_or_app.
      destruct Hx as [Hx | Hx]; [now left | right; now right].
Qed.

Lemma hdd_loop_sound (output : string) (devices : list string) :
  forall d d',
    hdd_loop re_search float devices output d = Some d' ->
    (forall k v, In (k, v) d -> device_reads re_search float output k v) ->
    forall k v, In (k, v) d' -> device_reads re_search float output k v.
Proof.
  induction devices as [|nvme rest IH]; intros d d' Hloop Hd; simpl in Hloop.
  - injection Hloop as <-. exact Hd.
  - destruct (re_search (hdd_pattern nvme) output) as [temp|] eqn:Hs.
    + destruct (float temp) as [v1|] eqn:Hf; [|discriminate].
      apply (IH _ _ Hloop). intros k v Hin.
      destruct (dict_set_In_inv _ _ _ _ _ Hin) as [(-> & ->) | Hold].
      * exists temp. split; assumption.
      * apply Hd, Hold.
    + apply (IH _ _ Hloop Hd).
Qed.

Lemma hdd_loop_complete (output : string) (devices : list string) :
  forall d d',
    hdd_loop re_search float devices output d = Some d' ->
    forall k v, device_reads re_search float output k v ->
                In (k, v) d \/ In k devices -> In (k, v) d'.
Proof.
  induction devices as [|nvme rest IH]; intros d d' Hloop k v Hr Hin;
    simpl in Hloop.
  - injection Hloop as <-. destruct Hin as [Hin | []]. exact Hin.
  - destruct Hr as (g & Hg & Hv).
    destruct (re_search (hdd_pattern nvme) output) as [temp|] eqn:Hs.
    + destruct (float temp) as [v1|] eqn:Hf; [|discriminate].
      apply (IH _ _ Hloop k v); [exists g; split; assumption|].
      destruct (String.eqb_spec k nvme) as [-> | Hne].
      * left. rewrite Hs in Hg. injection Hg as <-.
        rewrite Hf in Hv. injection Hv as <-. apply dict_set_In_new.
      * destruct Hin as [Hin | [<- | Hin]];
          [left; apply dict_set_In_keep; assumption
          | contradiction | now right].
    + apply (IH _ _ Hloop k v); [exists g; split; assumption|].
      destruct Hin as [Hin | [<- | Hin]]; [now left | congruence | now right].
Qed.

Lemma hdd_loop_raises (output : string) (devices : list string) :
  forall d nvme g,
    In nvme devices ->
    re_search (hdd_pattern nvme) output = Some g -> float g = None ->
    hdd_loop re_search float devices output d = None.
Proof.
  induction devices as [|dev rest IH]; intros d nvme g Hin Hg Hf; [destruct Hin|].
  simpl. destruct Hin as [-> | Hin].
  - rewrite Hg, Hf. reflexivity.
  - destruct (re_search (hdd_pattern dev) output) as [temp|];
      [destruct (float temp)|]; eauto.
Qed.

Lemma HDD_LIST_NoDup : NoDup HDD_LIST.
Proof.
  unfold HDD_LIST. repeat constructor; simpl; intuition discriminate.
Qed.

End ReaderFacts.

Lemma hdd_loop_returns
    (re_search : string -> string -> option string)
    (float : string -> option pyfloat) (output : string)
    (devices : list string) :
  (forall nvme g, In nvme devices ->
                  re_search (hdd_pattern nvme) output = Some g ->
                  float g <> None) ->
  forall d, exists d', hdd_loop re_search float devices output d = Some d'.
Proof.
  induction devices as [|dev rest IH]; intros Hok d; simpl; [eauto|].
  assert (Hrest : forall nvme g, In nvme rest ->
                                 re_search (hdd_pattern nvme) output = Some g ->
                                 float g <> None)
    by (intros nvme g Hin; apply Hok; now right).
  destruct (re_search (hdd_pattern dev) output) as [temp|] eqn:Hs;
    [|apply IH; exact Hrest].
  destruct (float temp) as [v|] eqn:Hf; [apply IH; exact Hrest|].
  exfalso. apply (Hok dev temp); [now left | exact Hs | exact Hf].
Qed.

(** X16.  The dict [get_hdd_temperature] returns has at most one entry per
    device, only devices of [HDD_LIST], hence at most four entries, and
    every entry carries the float parsed from the text that the device's
    pattern matched in the script output. *)
Theorem get_hdd_temperature_dict
    (re_search : string -> string -> option string)
    (float : string -> option pyfloat) (tempnvme : option string) :
  NoDup (map fst (get_hdd_temperature re_search float tempnvme)) /\
  incl (map fst (get_hdd_temperature re_search float tempnvme)) HDD_LIST /\
  (List.length (get_hdd_temperature re_search float tempnvme) <= 4)%nat /\
  (forall k v,
      In (k, v) (get_hdd_temperature re_search float tempnvme) ->
      exists output, tempnvme = Some output /\
                     device_reads re_search float output k v).
Proof.
  set (none := @nil (string * pyfloat)).
  assert (Hempty :
            NoDup (map fst none) /\
            incl (map fst none) HDD_LIST /\
            (List.length none <= 4)%nat /\
            (forall k v, In (k, v) none ->
                         exists output,
                           tempnvme = Some output /\
                           device_reads re_search float output k v)).
  { split; [constructor|]. split; [intros ? []|].
    split; [simpl; lia|]. intros ? ? []. }
  unfold get_hdd_temperature.
  destruct tempnvme as [output|]; [|exact Hempty].
  destruct (hdd_loop re_search float HDD_LIST output []) as [d'|] eqn:Hloop;
    [|exact Hempty].
  destruct (hdd_loop_keys re_search float output HDD_LIST [] d' Hloop)
    as (K1 & K2 & K3); [constructor|].
  repeat split; trivial.
  intros k v Hin. exists output. split; trivial.
  apply (hdd_loop_sound re_search float output HDD_LIST [] d' Hloop);
    [intros ? ? [] | exact Hin].
Qed.

Lemma get_hdd_temperature_dict_witness :
  In ("/dev/nvme1"%string, of_int 40)
     (get_hdd_temperature (fun _ _ => Some "40.0"%string) example_float
                          (Some "out"%string)) /\
  exists output,
    Some "out"%string = Some output /\
    device_reads (fun _ _ => Some "40.0"%string) example_float output
                 "/dev/nvme1" (of_int 40).
Proof.
  assert (H : In ("/dev/nvme1"%string, of_int 40)
                 (get_hdd_temperature (fun _ _ => Some "40.0"%string)
                                      example_float (Some "out"%string)))
    by (right; left; reflexivity).
  split; [exact H|].
  exact (proj2 (proj2 (proj2 (get_hdd_temperature_dict
           (fun _ _ => Some "40.0"%string) example_float (Some "out"%string))))
           _ _ H).
Defined.

(** X17.  When no matched text fails to parse, every device of [HDD_LIST] whose
    pattern matches the script output is in the dict, with its parsed
    reading. *)
Theorem get_hdd_temperature_complete
    (re_search : string -> string -> option string)
    (float : string -> option pyfloat) (output k : string) (v : pyfloat) :
  (forall nvme g, In nvme HDD_LIST ->
                  re_search (hdd_pattern nvme) output = Some g ->
                  float g <> None) ->
  In k HDD_LIST ->
  device_reads re_search float output k v ->
  In (k, v) (get_hdd_temperature re_search float (Some output)).
Proof.
  intros Hok Hk Hr. unfold get_hdd_temperature.
  destruct (hdd_loop_returns re_search float output HDD_LIST Hok [])
    as (d' & Hloop).
  rewrite Hloop.
  apply (hdd_loop_complete re_search float output HDD_LIST [] d' Hloop k v Hr).
  now right.
Qed.

Lemma get_hdd_temperature_complete_witness :
  In "/dev/nvme3"%string HDD_LIST /\
  device_reads (fun _ _ => Some "40.0"%string) example_float "out"
               "/dev/nvme3" (of_int 40) /\
  In ("/dev/nvme3"%string, of_int 40)
     (get_hdd_temperature (fun _ _ => Some "40.0"%string) example_float
                          (Some "out"%string)).
Proof.
  assert (Hk : In "/dev/nvme3"%string HDD_LIST)
    by (right; right; right; left; reflexivity).
  assert (Hr : device_reads (fun _ _ => Some "40.0"%string) example_float
                            "out" "/dev/nvme3" (of_int 40))
    by (exists "40.0"%string; split; reflexivity).
  split; [exact Hk|]. split; [exact Hr|].
  apply (get_hdd_temperature_complete (fun _ _ => Some "40.0"%string)
           example_float "out" "/dev/nvme3" (of_int 40)); trivial.
  intros nvme g _ Hg. injection Hg as <-. discriminate.
Defined.

(** X18.  One device whose matched text is no float empties the whole dict: the
    exception leaves the loop, and the readings already taken from the
    other devices are dropped. *)
Theorem get_hdd_temperature_all_or_nothing
    (re_search : string -> string -> option string)
    (float : string -> option pyfloat) (output nvme g : string) :
  In nvme HDD_LIST ->
  re_search (hdd_pattern nvme) output = Some g ->
  float g = None ->
  get_hdd_temperature re_search float (Some output) = [].
Proof.
  intros Hin Hg Hf. unfold get_hdd_temperature.
  rewrite (hdd_loop_raises re_search float output HDD_LIST [] nvme g Hin Hg Hf).
  reflexivity.
Qed.

Lemma get_hdd_temperature_all_or_nothing_witness :
  In "/dev/nvme2"%string HDD_LIST /\
  example_search (hdd_pattern "/dev/nvme2") "out" = Some "1.2.3"%string /\
  example_float "1.2.3" = None /\
  get_hdd_temperature example_search example_float (Some "out"%string) = [].
Proof.
  assert (Hk : In "/dev/nvme2"%string HDD_LIST)
    by (right; right; left; reflexivity).
  split; [exact Hk|]. split; [reflexivity|]. split; [reflexivity|].
  exact (get_hdd_temperature_all_or_nothing example_search example_float
           "out" "/dev/nvme2" "1.2.3" Hk eq_refl eq_refl).
Defined.

(** X19.  Read through [get_hdd_temperature], one device whose matched text is
    no float makes [check_hdds] latch 1, however hot the other devices
    report to be. *)
Theorem unparsable_device_latches_1
    (re_search : string -> string -> option string)
    (float : string -> option pyfloat) (output nvme g : string)
    (t_run t_enter : Q) (sensors_cpu sensors_nic : option string)
    (ok : bool) (w : World) :
  In nvme HDD_LIST ->
  re_search (hdd_pattern nvme) output = Some g ->
  float g = None ->
  hdd_fan_speed
    (check_hdds (sensed re_search float t_run sensors_cpu sensors_nic
                        (Some output) ok t_enter) w) = 1.
Proof.
  intros Hin Hg Hf. rewrite check_hdds_latch. unfold sensed.
  cbn [hdd_temperatures].
  unfold get_hdd_temperature.
  rewrite (hdd_loop_raises re_search float output HDD_LIST [] nvme g Hin Hg Hf).
  reflexivity.
Qed.

Lemma unparsable_device_latches_1_witness :
  In "/dev/nvme2"%string HDD_LIST /\
  example_search (hdd_pattern "/dev/nvme2") "out" = Some "1.2.3"%string /\
  example_float "1.2.3" = None /\
  hdd_fan_speed
    (check_hdds (sensed example_search example_float 0 None None
                        (Some "out"%string) true 0) initial) = 1.
Proof.
  assert (Hk : In "/dev/nvme2"%string HDD_LIST)
    by (right; right; left; reflexivity).
  split; [exact Hk|]. split; [reflexivity|]. split; [reflexivity|].
  exact (unparsable_device_latches_1 example_search example_float
           "out" "/dev/nvme2" "1.2.3" 0 0 None None true initial
           Hk eq_refl eq_refl).
Defined.

(** X20.  The adapter loop of [get_nic_temperature] stops at the first adapter of
    its list whose pattern matches: later adapters are not consulted, and
    when the matched text is no float the exception leaves the loop instead
    of trying the next adapter.  With the list of the program, a match for
    be2net decides the reading whatever mlx5 reports. *)
Theorem nic_loop_first_match
    (re_search : string -> string -> option string)
    (float : string -> option pyfloat) (output : string)
    (before after : list string) (nic g : string) :
  (forall n, In n before -> re_search (nic_pattern n) output = None) ->
  re_search (nic_pattern nic) output = Some g ->
  nic_loop re_search float (before ++ nic :: after) output
  = match float g with
    | Some nic_temp => Some (Some nic_temp)
    | None => None
    end /\
  (before ++ nic :: after = ["be2net"%string; "mlx5"%string] ->
   get_nic_temperature re_search float (Some output) = float g).
Proof.
  intros Hbefore Hg.
  assert (Hloop : nic_loop re_search float (before ++ nic :: after) output
                  = match float g with
                    | Some nic_temp => Some (Some nic_temp)
                    | None => None
                    end).
  { induction before as [|n before IH]; simpl.
    - rewrite Hg. reflexivity.
    - rewrite (Hbefore n) by now left. apply IH.
      intros n' Hn'. apply Hbefore. now right. }
  split; [exact Hloop|].
  intros Hlist. unfold get_nic_temperature. rewrite <- Hlist, Hloop.
  destruct (float g); reflexivity.
Qed.

Lemma nic_loop_first_match_witness :
  (forall n, In n [] ->
             example_search (nic_pattern n) "out" = None) /\
  example_search (nic_pattern "be2net") "out" = Some "40.0"%string /\
  nic_loop example_search example_float
           ([] ++ "be2net"%string :: ["mlx5"%string]) "out"
  = Some (Some (of_int 40)).
Proof.
  assert (H0 : forall n, In n [] ->
                         example_search (nic_pattern n) "out" = None)
    by (intros n []).
  split; [exact H0|]. split; [reflexivity|].
  exact (proj1 (nic_loop_first_match example_search example_float "out"
                  [] ["mlx5"%string] "be2net" "40.0" H0 eq_refl)).
Defined.
